(** * PhishGuard gateway: server.js and passport.js

    A shallow embedding of the Express application of [server.js] and of the
    Passport strategies of [passport.js].

    - The two MongoDB collections are lists of documents in stored order; a
      filter object is a list of path/value pairs, matched as MongoDB does.
    - A handler is a computation in a state-and-exception monad over the
      database, the session of the client and a trace of what the request did
      (console lines, POSTs to the predictor, sleeps).
    - What the outside world answers is read from an oracle: whether a database
      call rejects, what each POST to the Flask predictor resolves to, the
      clock, bcrypt.
    - Times are milliseconds, the confidence of a prediction is kept as its
      JSON text, a timestamp is not formatted.

    The routes that serve files without a session check, the health probe and
    the 404 fall-through read and write nothing of the above and are left out. *)

From Stdlib Require Import String Ascii List Bool Arith ZArith Lia DecimalString.
From Stdlib Require Import Sorted Permutation.
Import ListNotations.
Open Scope string_scope.

Set Implicit Arguments.

(* ------------------------------------------------------------------ *)
(** ** JavaScript values *)

Module Js.

(** [!!s] for a string: only the empty string is falsy. *)
Definition truthy (s : string) : bool := negb (s =? "").

(** [!!x] where [x] is a string or [undefined]. *)
Definition truthy_opt (o : option string) : bool :=
  match o with
  | Some s => truthy s
  | None => false
  end.

(** [a || b] on values that are strings or [undefined]. *)
Definition or (a b : option string) : option string :=
  if truthy_opt a then a else b.

(** [s.split(sep)[0]]: the part of [s] before the first [sep]. *)
Fixpoint split_head (sep : ascii) (s : string) : string :=
  match s with
  | EmptyString => EmptyString
  | String c r => if Ascii.eqb c sep then EmptyString else String c (split_head sep r)
  end.

(** [x] when it is truthy, for [if (x)] followed by a use of [x]. *)
Definition present (o : option string) : option string :=
  if truthy_opt o then o else None.

(** A value interpolated in a template string. *)
Definition show (o : option string) : string :=
  match o with
  | Some s => s
  | None => "undefined"
  end.

Definition show_nat (n : nat) : string := NilEmpty.string_of_uint (Nat.to_uint n).

(** The [response] member of an axios error: the status and the body, the
    latter as the text [JSON.stringify] gives for it ([None]: undefined). *)
Record ErrResponse := { err_status : nat; err_data : option string }.

(** What the handlers read of a thrown value. *)
Record Error := {
  message : string;
  code : option string;
  response : option ErrResponse;
  stack : option string
}.

Definition TypeError (msg : string) : Error :=
  {| message := msg; code := None; response := None; stack := None |}.

End Js.

(* ------------------------------------------------------------------ *)
(** ** Documents and query filters *)

(** The values the handlers store under a path or put in a filter. *)
Inductive value :=
| VStr (s : string)
| VId (n : nat)
| VDate (t : nat).

Definition value_eqb (a b : value) : bool :=
  match a, b with
  | VStr x, VStr y => (x =? y)%string
  | VId x, VId y => Nat.eqb x y
  | VDate x, VDate y => Nat.eqb x y
  | _, _ => false
  end.

(** A filter object such as [{ userId: id, prediction: "phishing" }]. *)
Definition filter := list (string * value).

(** A document matches when every path of the filter is present in it with
    the value asked for; a path the document lacks matches nothing. *)
Definition matches {D : Type} (field : D -> string -> option value)
    (q : filter) (d : D) : bool :=
  forallb (fun kv => match field d (fst kv) with
                     | Some w => value_eqb w (snd kv)
                     | None => false
                     end) q.

(** Mongoose's [strictQuery] option, which decides what becomes of a filter
    path the schema does not declare: kept, dropped, or refused.  It is set
    where the models are defined, so all three are modelled. *)
Inductive strictQuery := SQ_false | SQ_true | SQ_throw.

Definition known (schema : list string) (kv : string * value) : bool :=
  existsb (String.eqb (fst kv)) schema.

(** The filter sent to the database: [None] when the query is refused. *)
Definition cast (sq : strictQuery) (schema : list string) (q : filter) : option filter :=
  match sq with
  | SQ_false => Some q
  | SQ_true => Some (List.filter (known schema) q)
  | SQ_throw => if forallb (known schema) q then Some q else None
  end.

Module Users.

(** Modelled from the spec: the User schema of models/Users, which is not
    among the sources.  The fields are those of the User of the spec (email,
    hashed password, external identity as [googleId], name) and of the two
    places that build one: [new User({ email, password: hashedPassword, name })]
    and [new User({ googleId: profile.id, name: profile.displayName, email })].
    What the schema validates or indexes is not modelled: a save the database
    refuses is a fault of the oracle. *)
Record doc := {
  _id : nat;
  email : option string;
  password : option string;
  googleId : option string;
  name : option string
}.

Definition schema : list string :=
  ["_id"; "email"; "password"; "googleId"; "name"].

Definition field (u : doc) (k : string) : option value :=
  if k =? "_id" then Some (VId (_id u))
  else if k =? "email" then option_map VStr (email u)
  else if k =? "password" then option_map VStr (password u)
  else if k =? "googleId" then option_map VStr (googleId u)
  else if k =? "name" then option_map VStr (name u)
  else None.

End Users.

Module UrlCheck.

(** Modelled from the spec: the ScanRecord schema of models/UrlCheck, which
    is not among the sources.  server.js names its paths where it saves one:
    "url, prediction, confidence, checkedAt (default), user". *)
Record doc := {
  _id : nat;
  url : string;
  prediction : option string;
  confidence : option string;   (* the number, as its JSON text *)
  user : nat;
  checkedAt : nat               (* milliseconds *)
}.

Definition schema : list string :=
  ["_id"; "url"; "prediction"; "confidence"; "checkedAt"; "user"].

Definition field (c : doc) (k : string) : option value :=
  if k =? "_id" then Some (VId (_id c))
  else if k =? "url" then Some (VStr (url c))
  else if k =? "prediction" then option_map VStr (prediction c)
  else if k =? "confidence" then option_map VStr (confidence c)
  else if k =? "user" then Some (VId (user c))
  else if k =? "checkedAt" then Some (VDate (checkedAt c))
  else None.

(** [.sort({ checkedAt: -1 })]: newest first, ties in stored order. *)
Fixpoint insert_desc (c : doc) (l : list doc) : list doc :=
  match l with
  | [] => [c]
  | d :: r => if Nat.leb (checkedAt d) (checkedAt c) then c :: d :: r
              else d :: insert_desc c r
  end.

Definition sort_desc (l : list doc) : list doc :=
  fold_right insert_desc [] l.

(** [.select("url prediction confidence checkedAt")] (with [_id], which
    Mongoose always keeps). *)
Record view := {
  v_id : nat;
  v_url : string;
  v_prediction : option string;
  v_confidence : option string;
  v_checkedAt : nat
}.

Definition select (c : doc) : view :=
  {| v_id := _id c; v_url := url c; v_prediction := prediction c;
     v_confidence := confidence c; v_checkedAt := checkedAt c |}.

End UrlCheck.

(* ------------------------------------------------------------------ *)
(** ** The database, the process and the outside world *)

Record Store := {
  users : list Users.doc;
  urlchecks : list UrlCheck.doc;
  next_id : nat                 (* the next ObjectId *)
}.

(** [process.env], read once when the server starts. *)
Record ProcessEnv := {
  env_FLASK_URL : option string;
  env_FLASK_SERVICE_URL : option string;
  env_NODE_ENV : option string;
  schema_strictQuery : strictQuery
}.

(** [process.env.FLASK_URL || process.env.FLASK_SERVICE_URL] *)
Definition FLASK_URL (pe : ProcessEnv) : option string :=
  Js.or (env_FLASK_URL pe) (env_FLASK_SERVICE_URL pe).

(** The database calls the handlers make. *)
Inductive db_call :=
| UserFindOne (q : filter)
| UserFindById (id : nat)
| UserSave
| UrlCheckSave
| UrlCheckFind (q : filter)
| UrlCheckCount (q : filter).

(** What [axios.post] resolves to: the status and [data] of the reply. *)
Record FlaskData := { r_prediction : option string; r_confidence : option string }.
Record AxiosResponse := { ax_status : nat; data : FlaskData }.

(** The answers of the outside world during one request. *)
Record Oracle := {
  db_fault : db_call -> option Js.Error;        (* the call rejects with this error *)
  flask_predict : nat -> AxiosResponse + Js.Error;  (* the n-th POST of the request *)
  now_checkedAt : nat;                          (* the clock when a UrlCheck is built *)
  now_response : nat;                           (* the clock when the reply is built *)
  bcrypt_hash : string -> nat -> string;
  bcrypt_compare : string -> string -> bool
}.

(** A console argument. *)
Inductive arg :=
| AStr (s : string)
| ANum (n : nat)
| AErr (e : Js.Error).

Inductive level := LLog | LWarn | LError.

(** What a request does besides answering. *)
Inductive event :=
| Console (l : level) (args : list arg)
| AxiosPost (target : string) (payload_url payload_user : string) (timeout : N)
| Sleep (ms : N).

(** The state a request runs in: the database, the session of the client
    (the user id [serializeUser] keeps) and the events so far. *)
Record World := {
  store : Store;
  session : option nat;
  trace : list event
}.

(* ------------------------------------------------------------------ *)
(** ** The monad of the handlers *)

Inductive outcome (A : Type) :=
| Return (a : A)
| Throw (e : Js.Error).
Arguments Return {A} a.
Arguments Throw {A} e.

Definition M (A : Type) : Type := World -> outcome A * World.

Definition ret {A} (a : A) : M A := fun w => (Return a, w).

Definition throw {A} (e : Js.Error) : M A := fun w => (Throw e, w).

Definition bind {A B} (m : M A) (k : A -> M B) : M B :=
  fun w => match m w with
           | (Return a, w') => k a w'
           | (Throw e, w') => (Throw e, w')
           end.

(** [try { m } catch (e) { h e }] *)
Definition try_catch {A} (m : M A) (h : Js.Error -> M A) : M A :=
  fun w => match m w with
           | (Return a, w') => (Return a, w')
           | (Throw e, w') => h e w'
           end.

Declare Scope js_scope.
Delimit Scope js_scope with js.
Notation "x <- m ;; k" := (bind m (fun x => k))
  (at level 61, m at next level, right associativity) : js_scope.
Notation "m ;; k" := (bind m (fun _ => k))
  (at level 61, right associativity) : js_scope.
Open Scope js_scope.

Definition emit (e : event) : M unit :=
  fun w => (Return tt, {| store := store w; session := session w;
                          trace := trace w ++ [e] |}).

Definition get_session : M (option nat) := fun w => (Return (session w), w).

Definition put_session (o : option nat) : M unit :=
  fun w => (Return tt, {| store := store w; session := o; trace := trace w |}).

Definition console (l : level) (args : list arg) : M unit := emit (Console l args).

(* ------------------------------------------------------------------ *)
(** ** Replies *)

Inductive body :=
| Json_message (message : string)
| Json_message_error (message err : string)
| Json_login (message username : string)
| Json_current_user (loggedIn : bool) (username email : option string)
| Json_scan (url : string) (prediction confidence : option string)
    (timestamp : nat) (message : string)
| Json_no_scans (message : string) (total : Z)            (* scans: [] *)
| Json_scans (scans : list UrlCheck.view) (total phishingFound legitimateFound : Z)
| Text (s : string)
| Redirect (location : string)
| File (name : string).

Record response := { status : nat; payload : body }.

Definition json (b : body) : response := {| status := 200; payload := b |}.
Definition status_json (st : nat) (b : body) : response := {| status := st; payload := b |}.
Definition redirect (location : string) : response :=
  {| status := 302; payload := Redirect location |}.
Definition sendFile (name : string) : response := {| status := 200; payload := File name |}.

Section Handlers.

Variable cfg : ProcessEnv.
Variable outside : Oracle.

(* ------------------------------------------------------------------ *)
(** ** Mongoose calls *)

Definition StrictModeError : Js.Error :=
  Js.TypeError "Path is not in schema and strictQuery is 'throw'.".

Definition DocumentNotFoundError : Js.Error :=
  Js.TypeError "No document found for query".

Definition set_store (s : Store) (w : World) : World :=
  {| store := s; session := session w; trace := trace w |}.

(** A call that reaches the database rejects when the oracle says so. *)
Definition db_read {A} (c : db_call) (run : Store -> A) : M A :=
  fun w => match db_fault outside c with
           | Some e => (Throw e, w)
           | None => (Return (run (store w)), w)
           end.

Definition db_write (c : db_call) (run : Store -> Store + Js.Error) : M unit :=
  fun w => match db_fault outside c with
           | Some e => (Throw e, w)
           | None => match run (store w) with
                     | inl s' => (Return tt, set_store s' w)
                     | inr e => (Throw e, w)
                     end
           end.

(** A query is cast against the schema before it is sent. *)
Definition query {A} (schema : list string) (q : filter) (c : db_call)
    (run : filter -> Store -> A) : M A :=
  match cast (schema_strictQuery cfg) schema q with
  | None => throw StrictModeError
  | Some q' => db_read c (run q')
  end.

(** [new Model(...)] draws a fresh ObjectId. *)
Definition new_id : M nat :=
  fun w => let s := store w in
           (Return (next_id s),
            set_store {| users := users s; urlchecks := urlchecks s;
                         next_id := S (next_id s) |} w).

Definition User_findOne (q : filter) : M (option Users.doc) :=
  query Users.schema q (UserFindOne q)
    (fun q' s => find (matches Users.field q') (users s)).

Definition User_findById (id : nat) : M (option Users.doc) :=
  db_read (UserFindById id)
    (fun s => find (fun u => Nat.eqb (Users._id u) id) (users s)).

(** [doc.save()] of a document built with [new User]. *)
Definition User_insert (u : Users.doc) : M unit :=
  db_write UserSave
    (fun s => inl {| users := users s ++ [u]; urlchecks := urlchecks s;
                     next_id := next_id s |}).

Fixpoint replace_user (u : Users.doc) (l : list Users.doc) : option (list Users.doc) :=
  match l with
  | [] => None
  | x :: r => if Nat.eqb (Users._id x) (Users._id u) then Some (u :: r)
              else option_map (cons x) (replace_user u r)
  end.

(** [doc.save()] of a document read from the collection: the stored document
    with the same [_id] is overwritten. *)
Definition User_update (u : Users.doc) : M unit :=
  db_write UserSave
    (fun s => match replace_user u (users s) with
              | Some l => inl {| users := l; urlchecks := urlchecks s;
                                 next_id := next_id s |}
              | None => inr DocumentNotFoundError
              end).

Definition UrlCheck_insert (c : UrlCheck.doc) : M unit :=
  db_write UrlCheckSave
    (fun s => inl {| users := users s; urlchecks := urlchecks s ++ [c];
                     next_id := next_id s |}).

(** [UrlCheck.find(q).sort({ checkedAt: -1 }).limit(n).select(...)] *)
Definition UrlCheck_find_recent (q : filter) (n : nat) : M (list UrlCheck.view) :=
  query UrlCheck.schema q (UrlCheckFind q)
    (fun q' s =>
       map UrlCheck.select
         (firstn n (UrlCheck.sort_desc
                      (List.filter (matches UrlCheck.field q') (urlchecks s))))).

Definition UrlCheck_countDocuments (q : filter) : M nat :=
  query UrlCheck.schema q (UrlCheckCount q)
    (fun q' s => length (List.filter (matches UrlCheck.field q') (urlchecks s))).

(* ------------------------------------------------------------------ *)
(** ** passport.js *)

(** What a verify callback hands to [done]. *)
Inductive done :=
| DoneErr (e : Js.Error)                (* done(err) *)
| DoneFalse (info : string)             (* done(null, false, { message }) *)
| DoneUser (u : Users.doc).             (* done(null, user) *)

(** The verify callback of the LocalStrategy: loginLocal. *)
Definition LocalStrategy_verify (email password : string) : M done :=
  try_catch
    (user <- User_findOne [("email", VStr email)] ;;
     match user with
     | None => ret (DoneFalse "Incorrect email")
     | Some user =>
         match Js.present (Users.password user) with
         | None => ret (DoneFalse "Please log in with Google")
         | Some hash =>
             let match_ := bcrypt_compare outside password hash in
             if negb match_ then ret (DoneFalse "Incorrect password")
             else ret (DoneUser user)
         end
     end)
    (fun err => ret (DoneErr err)).

(** The profile Google returns; [emails] holds the [value] of each entry. *)
Record Profile := {
  id : string;
  displayName : option string;
  emails : list string
}.

Definition link_google (u : Users.doc) (gid : string) : Users.doc :=
  {| Users._id := Users._id u; Users.email := Users.email u;
     Users.password := Users.password u; Users.googleId := Some gid;
     Users.name := Users.name u |}.

(** The verify callback of the GoogleStrategy: loginExternal. *)
Definition GoogleStrategy_verify (profile : Profile) : M done :=
  try_catch
    (user <- User_findOne [("googleId", VStr (id profile))] ;;
     match user with
     | Some user => ret (DoneUser user)
     | None =>
         let email := hd_error (emails profile) in
         linked <-
           match Js.present email with
           | Some e =>
               existingEmailUser <- User_findOne [("email", VStr e)] ;;
               match existingEmailUser with
               | Some existingEmailUser =>
                   let existingEmailUser := link_google existingEmailUser (id profile) in
                   User_update existingEmailUser ;;
                   ret (Some existingEmailUser)
               | None => ret None
               end
           | None => ret None
           end ;;
         match linked with
         | Some existingEmailUser => ret (DoneUser existingEmailUser)
         | None =>
             oid <- new_id ;;
             let newUser :=
               {| Users._id := oid; Users.email := email; Users.password := None;
                  Users.googleId := Some (id profile);
                  Users.name := displayName profile |} in
             User_insert newUser ;;
             ret (DoneUser newUser)
         end
     end)
    (fun err => ret (DoneErr err)).

(** [passport.deserializeUser] *)
Definition deserializeUser (uid : nat) : M done :=
  try_catch
    (user <- User_findById uid ;;
     match user with
     | Some user => ret (DoneUser user)
     | None => ret (DoneFalse "")
     end)
    (fun err => ret (DoneErr err)).

(** [passport.session()]: sets [req.user] from the session; a session whose
    user is gone is cleared. *)
Definition passport_session : M (option Users.doc) :=
  sid <- get_session ;;
  match sid with
  | None => ret None
  | Some uid =>
      d <- deserializeUser uid ;;
      match d with
      | DoneErr err => throw err
      | DoneFalse _ => put_session None ;; ret None
      | DoneUser u => ret (Some u)
      end
  end.

(** [req.logIn(user)] with [passport.serializeUser]. *)
Definition logIn (u : Users.doc) : M unit := put_session (Some (Users._id u)).

(** [passport.authenticate("local")] with no option: passport-local refuses a
    request without both fields, a failed verification ends the request with
    a bare 401, an error goes to [next(err)]. *)
Definition authenticate_local (email password : option string)
    (next : Users.doc -> M response) : M response :=
  match Js.present email, Js.present password with
  | Some e, Some p =>
      d <- LocalStrategy_verify e p ;;
      match d with
      | DoneErr err => throw err
      | DoneFalse _ => ret (status_json 401 (Text "Unauthorized"))
      | DoneUser u => logIn u ;; next u
      end
  | _, _ => ret (status_json 400 (Text "Bad Request"))
  end.

(** [passport.authenticate("google", { failureRedirect: "/login" })], once
    Google has handed the profile over. *)
Definition authenticate_google (profile : Profile)
    (next : Users.doc -> M response) : M response :=
  d <- GoogleStrategy_verify profile ;;
  match d with
  | DoneErr err => throw err
  | DoneFalse _ => ret (redirect "/login")
  | DoneUser u => logIn u ;; next u
  end.

(* ------------------------------------------------------------------ *)
(** ** server.js: authentication and user routes *)

(** [req.user.name || req.user.email.split("@")[0]] *)
Definition username (u : Users.doc) : M string :=
  match Js.present (Users.name u) with
  | Some n => ret n
  | None =>
      match Users.email u with
      | Some e => ret (Js.split_head "@" e)
      | None => throw (Js.TypeError "Cannot read properties of undefined (reading 'split')")
      end
  end.

(** POST /api/signup, for a body that carries [email] and [password] as
    strings ([name] may be missing). *)
Definition post_signup (email password : string) (name : option string) : M response :=
  try_catch
    (existing <- User_findOne [("email", VStr email)] ;;
     match existing with
     | Some _ => ret (status_json 409 (Json_message "Email already exists"))
     | None =>
         let hashedPassword := bcrypt_hash outside password 10 in
         oid <- new_id ;;
         let newUser :=
           {| Users._id := oid; Users.email := Some email;
              Users.password := Some hashedPassword; Users.googleId := None;
              Users.name := name |} in
         User_insert newUser ;;
         ret (status_json 201 (Json_message "Signup success"))
     end)
    (fun err => ret (status_json 500 (Json_message_error "Signup error" (Js.message err)))).

(** POST /api/login *)
Definition post_login (email password : option string) : M response :=
  authenticate_local email password
    (fun user =>
       name <- username user ;;
       ret (status_json 200 (Json_login "Login success" name))).

(** GET /auth/google/callback *)
Definition get_google_callback (profile : Profile) : M response :=
  authenticate_google profile (fun _ => ret (redirect "/")).

(** GET /api/current_user *)
Definition get_current_user (req_user : option Users.doc) : M response :=
  match req_user with
  | Some user =>
      name <- username user ;;
      ret (json (Json_current_user true (Some name) (Users.email user)))
  | None => ret (json (Json_current_user false None None))
  end.

(** GET /phishing and GET /dashboard *)
Definition get_page (req_user : option Users.doc) (file : string) : M response :=
  match req_user with
  | None => ret (redirect "/login")
  | Some _ => ret (sendFile file)
  end.

(** GET /logout *)
Definition get_logout : M response :=
  put_session None ;; ret (redirect "/").

(* ------------------------------------------------------------------ *)
(** ** server.js: the scan *)

Definition maxAttempts : nat := 2.

(** [err.code || err.message || err] *)
Definition err_summary (err : Js.Error) : arg :=
  match Js.present (Js.code err) with
  | Some c => AStr c
  | None => if Js.truthy (Js.message err) then AStr (Js.message err) else AErr err
  end.

(** One [axios.post(`${FLASK_URL}/predict`, payload, { timeout: 120000 })]:
    the oracle answers the attempt. *)
Definition axios_post_predict (base targetUrl userId : string) (attempt : nat)
  : M AxiosResponse :=
  emit (AxiosPost (base ++ "/predict") targetUrl userId 120000%N) ;;
  match flask_predict outside attempt with
  | inl r => ret r
  | inr err => throw err
  end.

(** The [for] loop of callFlaskPredict from [attempt] on, with [remaining]
    turns left before [attempt <= maxAttempts] fails; a loop that runs out
    returns undefined. *)
Fixpoint callFlaskPredict_loop (base targetUrl userId : string)
    (remaining attempt : nat) : M (option AxiosResponse) :=
  match remaining with
  | 0 => ret None
  | S remaining' =>
      try_catch
        (r <- axios_post_predict base targetUrl userId attempt ;; ret (Some r))
        (fun err =>
           console LWarn [AStr ("Flask predict attempt " ++ Js.show_nat attempt ++ " failed:");
                          err_summary err] ;;
           if Nat.eqb attempt maxAttempts then throw err
           else
             emit (Sleep (250 * N.of_nat attempt)%N) ;;
             callFlaskPredict_loop base targetUrl userId remaining' (S attempt))
  end.

Definition callFlaskPredict (base targetUrl userId : string) : M (option AxiosResponse) :=
  callFlaskPredict_loop base targetUrl userId maxAttempts 1.

(** The logging of the [catch] of the scan handler. *)
Definition log_scan_error (e : Js.Error) : M unit :=
  console LError [AStr "❌ Scan error:"; AStr (Js.message e)] ;;
  match Js.present (Js.code e) with
  | Some c => console LError [AStr "Error code:"; AStr c]
  | None => ret tt
  end ;;
  match Js.response e with
  | Some r =>
      console LError [AStr "Flask response status:"; ANum (Js.err_status r)] ;;
      console LError [AStr "Flask response data:"; AStr (Js.show (Js.err_data r))]
  | None => ret tt
  end ;;
  match Js.present (Js.stack e) with
  | Some st => console LError [AStr st]
  | None => ret tt
  end.

(** [error.message || (error.response && JSON.stringify(error.response.data))
     || "Unknown scan error"] *)
Definition errMsg (e : Js.Error) : string :=
  if Js.truthy (Js.message e) then Js.message e
  else match Js.response e with
       | Some r => match Js.present (Js.err_data r) with
                   | Some d => d
                   | None => "Unknown scan error"
                   end
       | None => "Unknown scan error"
       end.

(** POST /api/scan-url *)
Definition post_scan_url (req_user : option Users.doc) (url : option string) : M response :=
  try_catch
    (match Js.present url with
     | None => ret (status_json 400 (Json_message "URL is required"))
     | Some url =>
         match Js.present (FLASK_URL cfg) with
         | None =>
             ret (status_json 503
                    (Json_message_error "AI service is not configured."
                       "FLASK_SERVICE_NOT_CONFIGURED"))
         | Some base =>
             console LLog [AStr ("🔍 Scanning URL: " ++ url)] ;;
             flaskResponse <-
               callFlaskPredict base url
                 (match req_user with
                  | Some user => Js.show_nat (Users._id user)
                  | None => "anonymous"
                  end) ;;
             match flaskResponse with
             | None =>
                 throw (Js.TypeError "Cannot read properties of undefined (reading 'data')")
             | Some flaskResponse =>
                 let result := data flaskResponse in
                 console LLog [AStr ("✅ Flask result: " ++ Js.show (r_prediction result)
                                      ++ " (" ++ Js.show (r_confidence result) ++ "%)")] ;;
                 match req_user with
                 | Some user =>
                     oid <- new_id ;;
                     let newCheck :=
                       {| UrlCheck._id := oid; UrlCheck.url := url;
                          UrlCheck.prediction := r_prediction result;
                          UrlCheck.confidence := r_confidence result;
                          UrlCheck.user := Users._id user;
                          UrlCheck.checkedAt := now_checkedAt outside |} in
                     UrlCheck_insert newCheck ;;
                     console LLog [AStr "✓ Saved to database"]
                 | None => ret tt
                 end ;;
                 ret (json (Json_scan url (r_prediction result) (r_confidence result)
                              (now_response outside)
                              (match r_prediction result with
                               | Some "phishing" => "Potential phishing site detected!"
                               | _ => "URL appears to be legitimate."
                               end)))
             end
         end
     end)
    (fun error =>
       log_scan_error error ;;
       ret (status_json 500 (Json_message_error "Scan failed" (errMsg error)))).

(* ------------------------------------------------------------------ *)
(** ** server.js: the scan history *)

(** GET /api/recent-scans *)
Definition get_recent_scans (req_user : option Users.doc) : M response :=
  try_catch
    (match req_user with
     | None => ret (json (Json_no_scans "Login to see scan history" 0))
     | Some user =>
         recentScans <- UrlCheck_find_recent [("user", VId (Users._id user))] 10 ;;
         totalScans <- UrlCheck_countDocuments [("userId", VId (Users._id user))] ;;
         phishingCount <-
           UrlCheck_countDocuments [("userId", VId (Users._id user));
                                    ("prediction", VStr "phishing")] ;;
         ret (json (Json_scans recentScans (Z.of_nat totalScans) (Z.of_nat phishingCount)
                      (Z.of_nat totalScans - Z.of_nat phishingCount)))
     end)
    (fun error =>
       console LError [AStr "Error fetching scans:"; AErr error] ;;
       ret (status_json 500 (Json_message "Error fetching scan history"))).

(* ------------------------------------------------------------------ *)
(** ** server.js: the application *)

Inductive request :=
| POST_signup (email password : string) (name : option string)
| POST_login (email password : option string)
| GET_google_callback (profile : Profile)
| GET_current_user
| POST_scan_url (url : option string)
| GET_recent_scans
| GET_phishing
| GET_dashboard
| GET_logout.

(** The last [app.use((error, req, res, next) => ...)]. *)
Definition error_middleware (e : Js.Error) : M response :=
  console LError [AStr "Unhandled error:"; AErr e] ;;
  ret (status_json 500
         (Json_message_error "Internal server error"
            (match env_NODE_ENV cfg with
             | Some "development" => Js.message e
             | _ => "Something went wrong"
             end))).

(** One request through [passport.session()], its route and, for what is
    thrown on the way, the error middleware. *)
Definition app (r : request) : M response :=
  try_catch
    (req_user <- passport_session ;;
     match r with
     | POST_signup email password name => post_signup email password name
     | POST_login email password => post_login email password
     | GET_google_callback profile => get_google_callback profile
     | GET_current_user => get_current_user req_user
     | POST_scan_url url => post_scan_url req_user url
     | GET_recent_scans => get_recent_scans req_user
     | GET_phishing => get_page req_user "phishing.html"
     | GET_dashboard => get_page req_user "dashboard.html"
     | GET_logout => get_logout
     end)
    error_middleware.

End Handlers.

(* ------------------------------------------------------------------ *)
(** ** Observations on a run *)

Definition is_console (e : event) : bool :=
  match e with
  | Console _ _ => true
  | _ => false
  end.

(** The events of a trace that leave the process or wait. *)
Definition network (t : list event) : list event :=
  List.filter (fun e => negb (is_console e)) t.

(** The world after the events [l]. *)
Definition emits (l : list event) (w : World) : World :=
  {| store := store w; session := session w; trace := trace w ++ l |}.

(** A user has an authentication path: a password hash or a Google id. *)
Definition has_auth_path (u : Users.doc) : Prop :=
  Users.password u <> None \/ Users.googleId u <> None.

(** The requests of a run, each with the answers of the outside world. *)
Definition run (cfg : ProcessEnv) (rs : list (Oracle * request)) (w : World) : World :=
  fold_left (fun w r => snd (app cfg (fst r) (snd r) w)) rs w.

Unset Implicit Arguments.

(* ------------------------------------------------------------------ *)
(** ** Names for what the handlers say and do *)

(** The filters [{ email }] and [{ googleId: profile.id }]. *)
Definition by_email (e : string) : filter := [("email", VStr e)].

Definition by_googleId (g : string) : filter := [("googleId", VStr g)].

(** [req.isAuthenticated() ? req.user._id.toString() : "anonymous"] *)
Definition caller_id (req_user : option Users.doc) : string :=
  match req_user with
  | Some user => Js.show_nat (Users._id user)
  | None => "anonymous"
  end.

(** The events of a scan, in the order the handler emits them. *)
Definition predict_post (base u uid : string) : event :=
  AxiosPost (base ++ "/predict") u uid 120000.

Definition attempt_failed (n : nat) (e : Js.Error) : event :=
  Console LWarn [AStr ("Flask predict attempt " ++ Js.show_nat n ++ " failed:"); err_summary e].

Definition scanning (u : string) : event := Console LLog [AStr ("🔍 Scanning URL: " ++ u)].

Definition flask_result (r : AxiosResponse) : event :=
  Console LLog [AStr ("✅ Flask result: " ++ Js.show (r_prediction (data r))
                       ++ " (" ++ Js.show (r_confidence (data r)) ++ "%)")].

Definition saved : event := Console LLog [AStr "✓ Saved to database"].

Definition scan_error_logged (e : Js.Error) : event :=
  Console LError [AStr "❌ Scan error:"; AStr (Js.message e)].

(** The body of a successful scan. *)
Definition scan_reply (orc : Oracle) (u : string) (r : AxiosResponse) : response :=
  json (Json_scan u (r_prediction (data r)) (r_confidence (data r)) (now_response orc)
          (match r_prediction (data r) with
           | Some "phishing" => "Potential phishing site detected!"
           | _ => "URL appears to be legitimate."
           end)).

(** The body the [catch] of the scan handler sends. *)
Definition scan_failed (e : Js.Error) : response :=
  status_json 500 (Json_message_error "Scan failed" (errMsg e)).

(** The document [new UrlCheck({ url, prediction, confidence, user })] builds. *)
Definition new_check (orc : Oracle) (oid : nat) (u : string) (r : AxiosResponse)
    (user : Users.doc) : UrlCheck.doc :=
  {| UrlCheck._id := oid; UrlCheck.url := u;
     UrlCheck.prediction := r_prediction (data r);
     UrlCheck.confidence := r_confidence (data r);
     UrlCheck.user := Users._id user;
     UrlCheck.checkedAt := now_checkedAt orc |}.

(** A reply that turns the caller away: a redirect or a 4xx/5xx status. *)
Definition rejected (r : response) : bool :=
  match payload r with
  | Redirect _ => true
  | _ => Nat.leb 400 (status r)
  end.

(** The bare 401 of a failed [passport.authenticate]. *)
Definition unauthorized : response := status_json 401 (Text "Unauthorized").

Definition created : response := status_json 201 (Json_message "Signup success").

Definition conflict : response := status_json 409 (Json_message "Email already exists").

(** The world once [req.logIn] bound the session to [u]. *)
Definition logged_in (u : Users.doc) (w : World) : World :=
  {| store := store w; session := Some (Users._id u); trace := trace w |}.

(** Why loginLocal refuses: the three cases of the verify callback. *)
Inductive login_failure (orc : Oracle) (l : list Users.doc) (e p : string) : Prop :=
| unknown_email :
    (forall u, In u l -> Users.email u <> Some e) -> login_failure orc l e p
| third_party_only u :
    find (matches Users.field (by_email e)) l = Some u ->
    Js.present (Users.password u) = None -> login_failure orc l e p
| wrong_password u h :
    find (matches Users.field (by_email e)) l = Some u ->
    Js.present (Users.password u) = Some h ->
    bcrypt_compare orc p h = false -> login_failure orc l e p.

(** The document signup stores. *)
Definition signup_user (orc : Oracle) (oid : nat) (e p : string) (n : option string)
  : Users.doc :=
  {| Users._id := oid; Users.email := Some e;
     Users.password := Some (bcrypt_hash orc p 10); Users.googleId := None;
     Users.name := n |}.

(** The document a first Google login stores when no email matches. *)
Definition google_user (oid : nat) (profile : Profile) : Users.doc :=
  {| Users._id := oid; Users.email := hd_error (emails profile); Users.password := None;
     Users.googleId := Some (id profile); Users.name := displayName profile |}.

(* ------------------------------------------------------------------ *)
(** ** The database between requests *)

(** An ObjectId was drawn and no document stored. *)
Definition bump_id (s : Store) : Store :=
  {| users := users s; urlchecks := urlchecks s; next_id := S (next_id s) |}.

Definition add_check (c : UrlCheck.doc) (s : Store) : Store :=
  {| users := users s; urlchecks := urlchecks s ++ [c]; next_id := S (next_id s) |}.

Definition add_user (u : Users.doc) (s : Store) : Store :=
  {| users := users s ++ [u]; urlchecks := urlchecks s; next_id := S (next_id s) |}.

Definition with_users (l : list Users.doc) (s : Store) : Store :=
  {| users := l; urlchecks := urlchecks s; next_id := next_id s |}.

(** Two worlds with the same database and session: only the trace moved. *)
Definition same_state (w w' : World) : Prop :=
  store w' = store w /\ session w' = session w.

(** What one request can do to the database. *)
Inductive store_change (s : Store) : Store -> Prop :=
| sc_same : store_change s s
| sc_bump : store_change s (bump_id s)
| sc_signup orc e p n :
    find (matches Users.field (by_email e)) (users s) = None ->
    store_change s (add_user (signup_user orc (next_id s) e p n) s)
| sc_google profile :
    find (matches Users.field (by_googleId (id profile))) (users s) = None ->
    (forall e, Js.present (hd_error (emails profile)) = Some e ->
               find (matches Users.field (by_email e)) (users s) = None) ->
    store_change s (add_user (google_user (next_id s) profile) s)
| sc_link u0 g e l :
    find (matches Users.field (by_googleId g)) (users s) = None ->
    find (matches Users.field (by_email e)) (users s) = Some u0 ->
    replace_user (link_google u0 g) (users s) = Some l ->
    store_change s (with_users l s)
| sc_check c :
    UrlCheck._id c = next_id s ->
    store_change s (add_check c s).

Definition all_have_auth_path (s : Store) : Prop :=
  forall u, In u (users s) -> has_auth_path u.

(** The database keeps ObjectIds apart, and the handlers keep non-empty emails
    apart: signup and loginExternal create a user only after the lookup by
    email found none. *)
Definition wf_store (s : Store) : Prop :=
  NoDup (map Users._id (users s)) /\
  (forall u, In u (users s) -> Users._id u < next_id s) /\
  (forall u v e, In u (users s) -> In v (users s) ->
                 Users.email u = Some e -> Users.email v = Some e ->
                 Js.truthy e = true -> u = v).

(** The scans of one user, as [find({ user }).sort().limit(10)] lists them. *)
Definition owned_by (uid : nat) (c : UrlCheck.doc) : bool := Nat.eqb (UrlCheck.user c) uid.

Definition recent (uid : nat) (l : list UrlCheck.doc) : list UrlCheck.doc :=
  firstn 10 (UrlCheck.sort_desc (List.filter (owned_by uid) l)).

Definition newer_or_same (a b : UrlCheck.doc) : Prop :=
  UrlCheck.checkedAt b <= UrlCheck.checkedAt a.

(* ------------------------------------------------------------------ *)
(** ** Sample processes, oracles and databases *)

Definition cfg_configured : ProcessEnv :=
  {| env_FLASK_URL := Some "http://127.0.0.1:7000"; env_FLASK_SERVICE_URL := None;
     env_NODE_ENV := Some "production"; schema_strictQuery := SQ_false |}.

Definition cfg_unconfigured : ProcessEnv :=
  {| env_FLASK_URL := None; env_FLASK_SERVICE_URL := None;
     env_NODE_ENV := Some "production"; schema_strictQuery := SQ_false |}.

Definition cfg_strict (sq : strictQuery) : ProcessEnv :=
  {| env_FLASK_URL := Some "http://127.0.0.1:7000"; env_FLASK_SERVICE_URL := None;
     env_NODE_ENV := Some "production"; schema_strictQuery := sq |}.

(** A stand-in for bcrypt in the samples: the hash shows its input. *)
Definition toy_hash (p : string) (rounds : nat) : string := "$2a$" ++ Js.show_nat rounds ++ "$" ++ p.

Definition phishing_reply : AxiosResponse :=
  {| ax_status := 200;
     data := {| r_prediction := Some "phishing"; r_confidence := Some "97.5" |} |}.

Definition ECONNREFUSED : Js.Error :=
  {| Js.message := "connect ECONNREFUSED 127.0.0.1:7000"; Js.code := Some "ECONNREFUSED";
     Js.response := None; Js.stack := None |}.

Definition write_failed : Js.Error :=
  {| Js.message := "UrlCheck validation failed"; Js.code := None;
     Js.response := None; Js.stack := None |}.

(** The predictor answers, the database answers. *)
Definition orc_ok : Oracle :=
  {| db_fault := fun _ => None;
     flask_predict := fun _ => inl phishing_reply;
     now_checkedAt := 1000; now_response := 1001;
     bcrypt_hash := toy_hash;
     bcrypt_compare := fun p h => h =? toy_hash p 10 |}.

(** The predictor answers, the save of the UrlCheck rejects. *)
Definition orc_save_fails : Oracle :=
  {| db_fault := fun c => match c with UrlCheckSave => Some write_failed | _ => None end;
     flask_predict := fun _ => inl phishing_reply;
     now_checkedAt := 1000; now_response := 1001;
     bcrypt_hash := toy_hash;
     bcrypt_compare := fun p h => h =? toy_hash p 10 |}.

(** The predictor is down. *)
Definition orc_down : Oracle :=
  {| db_fault := fun _ => None;
     flask_predict := fun _ => inr ECONNREFUSED;
     now_checkedAt := 1000; now_response := 1001;
     bcrypt_hash := toy_hash;
     bcrypt_compare := fun p h => h =? toy_hash p 10 |}.

Definition alice : Users.doc :=
  {| Users._id := 1; Users.email := Some "alice@example.org";
     Users.password := Some (toy_hash "correct horse" 10); Users.googleId := None;
     Users.name := Some "Alice" |}.

Definition bob_google_only : Users.doc :=
  {| Users._id := 2; Users.email := Some "bob@example.org";
     Users.password := None; Users.googleId := Some "google-1002";
     Users.name := None |}.

Definition w_empty : World :=
  {| store := {| users := []; urlchecks := []; next_id := 1 |}; session := None; trace := [] |}.

Definition w_alice : World :=
  {| store := {| users := [alice]; urlchecks := []; next_id := 2 |};
     session := Some 1; trace := [] |}.

Definition w_anonymous : World :=
  {| store := {| users := [alice]; urlchecks := []; next_id := 2 |};
     session := None; trace := [] |}.

Definition w_two_users : World :=
  {| store := {| users := [alice; bob_google_only]; urlchecks := []; next_id := 3 |};
     session := None; trace := [] |}.

Definition alice_on_google : Profile :=
  {| id := "google-2001"; displayName := Some "Alice A."; emails := ["alice@example.org"] |}.

Definition bob_on_google : Profile :=
  {| id := "google-1002"; displayName := None; emails := ["bob@example.org"] |}.

Definition alice_renamed_on_google : Profile :=
  {| id := "google-2001"; displayName := Some "Alice B."; emails := ["alice@new.example.org"] |}.

Definition w_alice_linked : World :=
  set_store (with_users [link_google alice "google-2001"; bob_google_only] (store w_two_users))
    w_two_users.

Definition scan_of_alice : UrlCheck.doc :=
  {| UrlCheck._id := 3; UrlCheck.url := "http://evil.example";
     UrlCheck.prediction := Some "phishing"; UrlCheck.confidence := Some "97.5";
     UrlCheck.user := 1; UrlCheck.checkedAt := 1000 |}.

Definition scan_of_bob : UrlCheck.doc :=
  {| UrlCheck._id := 4; UrlCheck.url := "http://good.example";
     UrlCheck.prediction := Some "legitimate"; UrlCheck.confidence := Some "88";
     UrlCheck.user := 2; UrlCheck.checkedAt := 2000 |}.

Definition w_history : World :=
  {| store := {| users := [alice; bob_google_only];
                 urlchecks := [scan_of_alice; scan_of_bob]; next_id := 5 |};
     session := Some 1; trace := [] |}.

(* ------------------------------------------------------------------ *)
(** ** Sessions and the last error handler *)

(** The user a session resolves to: none without a session or when the user
    is gone. *)
Definition session_user (w : World) : option Users.doc :=
  match session w with
  | Some uid => find (fun u => Nat.eqb (Users._id u) uid) (users (store w))
  | None => None
  end.

Definition without_session (w : World) : World :=
  {| store := store w; session := None; trace := trace w |}.

(** [passport.session()] when the lookup of the session's user is answered. *)
Definition session_answered (orc : Oracle) (w : World) : Prop :=
  forall uid, session w = Some uid -> db_fault orc (UserFindById uid) = None.

(** The reply of the last error handler to the error [e]. *)
Definition internal_error (cfg : ProcessEnv) (e : Js.Error) : response :=
  status_json 500
    (Json_message_error "Internal server error"
       (match env_NODE_ENV cfg with
        | Some "development" => Js.message e
        | _ => "Something went wrong"
        end)).

Definition unhandled (e : Js.Error) : event :=
  Console LError [AStr "Unhandled error:"; AErr e].

Definition split_of_undefined : Js.Error :=
  Js.TypeError "Cannot read properties of undefined (reading 'split')".

(* ------------------------------------------------------------------ *)
(** ** More of what every run keeps *)

(** No two users share a Google id. *)
Definition googleIds_apart (s : Store) : Prop :=
  forall u v g, In u (users s) -> In v (users s) ->
                Users.googleId u = Some g -> Users.googleId v = Some g -> u = v.

(** What no request changes of a stored user. *)
Definition account_identity (u : Users.doc) : nat * option string * option string * option string :=
  (Users._id u, Users.email u, Users.password u, Users.name u).

(** Every stored scan belongs to a stored user. *)
Definition scans_have_owners (s : Store) : Prop :=
  forall c, In c (urlchecks s) -> In (UrlCheck.user c) (map Users._id (users s)).

(* ------------------------------------------------------------------ *)
(** ** server.js: the health probe *)

(** The body of GET /api/health: [{ status, services: { nodejs, mongodb,
    flask_ai }, timestamp }]. *)
Inductive health_body :=
| Health_report (status nodejs mongodb flask_ai : string) (timestamp : nat).

(** What the health probe meets: the answer to [axios.get(`${FLASK_URL}/health`)]
    (the status of the reply, or the rejection), [mongoose.connection.readyState]
    and the clock. *)
Record Probe := {
  flask_health : nat + Js.Error;
  readyState : nat;
  now_health : nat
}.

Inductive probe_event :=
| AxiosGet (target : string) (timeout : N).

(** GET /api/health: the status, the body and the probes sent.  Nothing in
    its [try] throws, so the 500 of its [catch] is never sent. *)
Definition get_health (cfg : ProcessEnv) (probe : Probe)
  : nat * health_body * list probe_event :=
  let flask :=
    match Js.present (FLASK_URL cfg) with
    | Some base =>
        (match flask_health probe with
         | inl st => if Nat.eqb st 200 then "online" else "offline"
         | inr _ => "offline"
         end,
         [AxiosGet (base ++ "/health") 5000%N])
    | None => ("offline", [])
    end in
  let mongoStatus := if Nat.eqb (readyState probe) 1 then "online" else "offline" in
  (200, Health_report "online" "online" mongoStatus (fst flask) (now_health probe), snd flask).

(* ------------------------------------------------------------------ *)
(** ** server.js: the environment at start-up *)

(** What the start of the server reads of [process.env] besides [ProcessEnv]. *)
Record BootEnv := {
  proc : ProcessEnv;
  env_PORT : option string;
  env_MONGO_URI : option string;
  env_MONGODB_URI : option string
}.

(** [process.env.MONGO_URI || process.env.MONGODB_URI] *)
Definition MONGODB_URI (b : BootEnv) : option string :=
  Js.or (env_MONGO_URI b) (env_MONGODB_URI b).

(** [process.env.PORT || 3000] *)
Definition port (b : BootEnv) : string :=
  match Js.present (env_PORT b) with
  | Some p => p
  | None => "3000"
  end.

Inductive startup :=
| Exit (code : nat)                       (* process.exit(code) *)
| Continue (uri port : string).           (* on to the middleware and the routes *)

(** The checks of the environment that open server.js. *)
Definition check_environment (b : BootEnv) : list event * startup :=
  match Js.present (MONGODB_URI b) with
  | None => ([Console LError [AStr "❌ FATAL: MONGO_URI not set in .env!"]], Exit 1)
  | Some uri =>
      (match Js.present (FLASK_URL (proc b)) with
       | None => [Console LWarn
                    [AStr "⚠️ WARNING: FLASK_URL not set — AI features will not work."]]
       | Some _ => []
       end,
       Continue uri (port b))
  end.

(* ------------------------------------------------------------------ *)
(** ** More samples *)

(** A Google account whose profile had neither an email nor a display name. *)
Definition ghost : Users.doc :=
  {| Users._id := 7; Users.email := None; Users.password := None;
     Users.googleId := Some "google-7007"; Users.name := None |}.

Definition w_ghost : World :=
  {| store := {| users := [alice; ghost]; urlchecks := []; next_id := 8 |};
     session := Some 7; trace := [] |}.

Definition mongo_down : Js.Error :=
  {| Js.message := "connect ECONNREFUSED 127.0.0.1:27017"; Js.code := Some "ECONNREFUSED";
     Js.response := None; Js.stack := None |}.

(** Every database call rejects. *)
Definition orc_db_down : Oracle :=
  {| db_fault := fun _ => Some mongo_down;
     flask_predict := fun _ => inl phishing_reply;
     now_checkedAt := 1000; now_response := 1001;
     bcrypt_hash := toy_hash;
     bcrypt_compare := fun p h => h =? toy_hash p 10 |}.

(** A failure of the predictor whose message reads like the code of the 503. *)
Definition code_like_failure : Js.Error :=
  {| Js.message := "FLASK_SERVICE_NOT_CONFIGURED"; Js.code := None;
     Js.response := None; Js.stack := None |}.

Definition orc_code_like : Oracle :=
  {| db_fault := fun _ => None;
     flask_predict := fun _ => inr code_like_failure;
     now_checkedAt := 1000; now_response := 1001;
     bcrypt_hash := toy_hash;
     bcrypt_compare := fun p h => h =? toy_hash p 10 |}.

(** As [orc_ok], two seconds later. *)
Definition orc_later : Oracle :=
  {| db_fault := fun _ => None;
     flask_predict := fun _ => inl phishing_reply;
     now_checkedAt := 3000; now_response := 3001;
     bcrypt_hash := toy_hash;
     bcrypt_compare := fun p h => h =? toy_hash p 10 |}.

(* ------------------------------------------------------------------ *)
(** ** Traces and states *)

Lemma emit_emits e w : emit e w = (Return tt, emits [e] w).
Proof. reflexivity. Qed.

Lemma emits_emits l1 l2 w : emits l2 (emits l1 w) = emits (l1 ++ l2)%list w.
Proof. unfold emits; simpl. now rewrite app_assoc. Qed.

Lemma trace_emits l w : trace (emits l w) = (trace w ++ l)%list.
Proof. reflexivity. Qed.

Lemma network_app t1 t2 : network (t1 ++ t2) = (network t1 ++ network t2)%list.
Proof. apply filter_app. Qed.

Ltac step_m :=
  unfold try_catch, bind, ret, throw, console, emit, get_session, put_session in *;
  simpl.

Ltac same_world :=
  unfold emits, set_store; simpl; rewrite <- ?app_assoc; simpl; reflexivity.

Ltac net :=
  simpl fst; simpl snd; rewrite ?trace_emits; unfold set_store; simpl trace;
  rewrite ?network_app; simpl;
  repeat match goal with
         | H : network ?l = [] |- _ => rewrite ?H; clear H
         end;
  rewrite ?app_nil_r; try reflexivity.

Lemma same_state_refl w : same_state w w.
Proof. split; reflexivity. Qed.

Lemma same_state_trans w1 w2 w3 : same_state w1 w2 -> same_state w2 w3 -> same_state w1 w3.
Proof. intros [A B] [C D]. split; congruence. Qed.

Lemma same_state_emits l w : same_state w (emits l w).
Proof. split; reflexivity. Qed.

(* ------------------------------------------------------------------ *)
(** ** Lookups and updates of the users *)

Lemma cast_by_email sq e : cast sq Users.schema (by_email e) = Some (by_email e).
Proof. destruct sq; reflexivity. Qed.

Lemma cast_by_googleId sq g : cast sq Users.schema (by_googleId g) = Some (by_googleId g).
Proof. destruct sq; reflexivity. Qed.

Lemma matches_by_email e u :
  matches Users.field (by_email e) u = true <-> Users.email u = Some e.
Proof.
  unfold matches, by_email, Users.field; simpl. destruct (Users.email u) as [x|]; simpl.
  - rewrite andb_true_r. split.
    + intros H. apply String.eqb_eq in H. congruence.
    + intros [= ->]. apply String.eqb_refl.
  - split; discriminate.
Qed.

Lemma matches_by_googleId g u :
  matches Users.field (by_googleId g) u = true <-> Users.googleId u = Some g.
Proof.
  unfold matches, by_googleId, Users.field; simpl. destruct (Users.googleId u) as [x|]; simpl.
  - rewrite andb_true_r. split.
    + intros H. apply String.eqb_eq in H. congruence.
    + intros [= ->]. apply String.eqb_refl.
  - split; discriminate.
Qed.

Lemma User_findOne_email cfg orc e w :
  User_findOne cfg orc (by_email e) w =
  match db_fault orc (UserFindOne (by_email e)) with
  | Some err => (Throw err, w)
  | None => (Return (find (matches Users.field (by_email e)) (users (store w))), w)
  end.
Proof. unfold User_findOne, query. rewrite cast_by_email. reflexivity. Qed.

Lemma User_findOne_googleId cfg orc g w :
  User_findOne cfg orc (by_googleId g) w =
  match db_fault orc (UserFindOne (by_googleId g)) with
  | Some err => (Throw err, w)
  | None => (Return (find (matches Users.field (by_googleId g)) (users (store w))), w)
  end.
Proof. unfold User_findOne, query. rewrite cast_by_googleId. reflexivity. Qed.

Lemma find_none_unknown e l :
  (forall u, In u l -> Users.email u <> Some e) ->
  find (matches Users.field (by_email e)) l = None.
Proof.
  intros H. destruct (find _ l) as [u|] eqn:F; [|reflexivity].
  apply find_some in F. destruct F as [Hin Hm].
  apply matches_by_email in Hm. now apply H in Hin.
Qed.

Lemma find_none_email e l u :
  find (matches Users.field (by_email e)) l = None -> In u l -> Users.email u <> Some e.
Proof.
  intros F Hin He. apply (find_none _ _ F) in Hin.
  apply matches_by_email in He. congruence.
Qed.

Lemma find_none_googleId g l :
  (forall v, In v l -> Users.googleId v <> Some g) ->
  find (matches Users.field (by_googleId g)) l = None.
Proof.
  intros H. destruct (find _ l) as [u|] eqn:F; [|reflexivity].
  apply find_some in F. destruct F as [Hin Hm].
  apply matches_by_googleId in Hm. now apply H in Hin.
Qed.

Lemma find_by_email_unique e u l :
  In u l -> Users.email u = Some e ->
  (forall v, In v l -> Users.email v = Some e -> v = u) ->
  find (matches Users.field (by_email e)) l = Some u.
Proof.
  intros Hin He Huniq.
  destruct (find (matches Users.field (by_email e)) l) as [v|] eqn:F.
  - apply find_some in F. destruct F as [Hv Hm]. apply matches_by_email in Hm.
    f_equal. now apply Huniq.
  - apply (find_none _ _ F) in Hin. apply matches_by_email in He. congruence.
Qed.

Lemma find_app_new {A} (f : A -> bool) l x :
  find f l = None -> find f (l ++ [x]) = if f x then Some x else None.
Proof.
  induction l as [|a l IH]; simpl; [reflexivity|].
  destruct (f a); [discriminate|exact IH].
Qed.

Lemma replace_user_find (f : Users.doc -> bool) u' l l' :
  find f l = None -> f u' = true -> replace_user u' l = Some l' -> find f l' = Some u'.
Proof.
  revert l'. induction l as [|x l IH]; simpl; intros l' Hn Hu Hr; [discriminate|].
  destruct (f x) eqn:Fx; [discriminate|].
  destruct (Nat.eqb (Users._id x) (Users._id u')).
  - injection Hr as <-. simpl. now rewrite Hu.
  - destruct (replace_user u' l) as [r|]; [|discriminate].
    injection Hr as <-. simpl. rewrite Fx. now apply IH.
Qed.

Lemma replace_user_at u u' l :
  In u l -> Users._id u' = Users._id u ->
  (forall v, In v l -> Users._id v = Users._id u -> v = u) ->
  exists l1 l2, l = (l1 ++ u :: l2)%list /\ replace_user u' l = Some (l1 ++ u' :: l2)%list.
Proof.
  intros Hin Hid. induction l as [|x l IH]; intros Huniq; [destruct Hin|].
  simpl. rewrite Hid. destruct (Nat.eqb (Users._id x) (Users._id u)) eqn:E.
  - apply Nat.eqb_eq in E. assert (x = u) as -> by (apply Huniq; [now left|exact E]).
    exists [], l. split; reflexivity.
  - destruct Hin as [->|Hin]; [rewrite Nat.eqb_refl in E; discriminate|].
    destruct (IH Hin) as [l1 [l2 [-> Hr]]].
    { intros v Hv. apply Huniq. now right. }
    rewrite Hr. exists (x :: l1), l2. split; reflexivity.
Qed.

Lemma replace_user_In u' l l' v :
  replace_user u' l = Some l' -> In v l' -> In v l \/ v = u'.
Proof.
  revert l'. induction l as [|x l IH]; simpl; intros l' Hr Hv; [discriminate|].
  destruct (Nat.eqb (Users._id x) (Users._id u')).
  - injection Hr as <-. destruct Hv as [<-|Hv]; auto.
  - destruct (replace_user u' l) as [r|]; [|discriminate].
    injection Hr as <-. destruct Hv as [<-|Hv]; [auto|].
    destruct (IH r eq_refl Hv); auto.
Qed.

Lemma replace_user_ids u' l l' :
  replace_user u' l = Some l' -> map Users._id l' = map Users._id l.
Proof.
  revert l'. induction l as [|x l IH]; simpl; intros l' Hr; [discriminate|].
  destruct (Nat.eqb (Users._id x) (Users._id u')) eqn:E.
  - injection Hr as <-. simpl. apply Nat.eqb_eq in E. now rewrite E.
  - destruct (replace_user u' l) as [r|]; [|discriminate].
    injection Hr as <-. simpl. f_equal. now apply IH.
Qed.

(** After a link every stored user is an old one, up to its Google id. *)
Lemma replace_user_origin u0 g l l' v :
  In u0 l -> replace_user (link_google u0 g) l = Some l' -> In v l' ->
  exists v0, In v0 l /\ Users._id v = Users._id v0 /\ Users.email v = Users.email v0.
Proof.
  intros H0 Hr Hv. destruct (replace_user_In _ _ _ _ Hr Hv) as [Hin| ->].
  - exists v. auto.
  - exists u0. auto.
Qed.

Lemma NoDup_map_inj {A B} (f : A -> B) l a b :
  NoDup (map f l) -> In a l -> In b l -> f a = f b -> a = b.
Proof.
  induction l as [|x l IH]; simpl; intros Hn Ha Hb Hf; [destruct Ha|].
  inversion Hn as [|y r Hx Hr]; subst.
  destruct Ha as [->|Ha], Hb as [->|Hb]; auto.
  - exfalso. apply Hx. rewrite Hf. now apply in_map.
  - exfalso. apply Hx. rewrite <- Hf. now apply in_map.
Qed.

(* ------------------------------------------------------------------ *)
(** ** The predictor client *)

Lemma callFlaskPredict_first_ok orc base u uid w r :
  flask_predict orc 1 = inl r ->
  callFlaskPredict orc base u uid w = (Return (Some r), emits [predict_post base u uid] w).
Proof.
  intros H. unfold callFlaskPredict, maxAttempts, callFlaskPredict_loop, axios_post_predict.
  step_m. rewrite H. reflexivity.
Qed.

Lemma callFlaskPredict_retry_ok orc base u uid w e1 r :
  flask_predict orc 1 = inr e1 -> flask_predict orc 2 = inl r ->
  callFlaskPredict orc base u uid w =
  (Return (Some r),
   emits [predict_post base u uid; attempt_failed 1 e1; Sleep 250; predict_post base u uid] w).
Proof.
  intros H1 H2. unfold callFlaskPredict, maxAttempts, callFlaskPredict_loop, axios_post_predict.
  step_m. rewrite H1. simpl. rewrite H2. f_equal. same_world.
Qed.

Lemma callFlaskPredict_both_fail orc base u uid w e1 e2 :
  flask_predict orc 1 = inr e1 -> flask_predict orc 2 = inr e2 ->
  callFlaskPredict orc base u uid w =
  (Throw e2,
   emits [predict_post base u uid; attempt_failed 1 e1; Sleep 250; predict_post base u uid;
          attempt_failed 2 e2] w).
Proof.
  intros H1 H2. unfold callFlaskPredict, maxAttempts, callFlaskPredict_loop, axios_post_predict.
  step_m. rewrite H1. simpl. rewrite H2. f_equal. same_world.
Qed.

Lemma callFlaskPredict_loop_state orc base u uid n :
  forall a w, same_state w (snd (callFlaskPredict_loop orc base u uid n a w)).
Proof.
  induction n as [|n IH]; intros a w; simpl.
  - apply same_state_refl.
  - unfold try_catch, bind, axios_post_predict, bind, console. rewrite emit_emits.
    destruct (flask_predict orc a) as [r|e]; simpl.
    + apply same_state_emits.
    + destruct (Nat.eqb a maxAttempts); simpl.
      * split; reflexivity.
      * eapply same_state_trans; [|apply IH]. split; reflexivity.
Qed.

Lemma log_scan_error_consoles e w :
  exists l, log_scan_error e w = (Return tt, emits (scan_error_logged e :: l) w) /\ network l = [].
Proof.
  unfold log_scan_error, bind, console.
  rewrite emit_emits.
  destruct (Js.present (Js.code e)); destruct (Js.response e); destruct (Js.present (Js.stack e));
    unfold ret; repeat (rewrite ?emit_emits, ?emits_emits; simpl);
    eexists; split; try reflexivity; reflexivity.
Qed.

(* ------------------------------------------------------------------ *)
(** ** The scan handler *)

Ltac open_scan Hu Hb Hc :=
  unfold post_scan_url; rewrite Hu, Hb;
  cbv beta iota zeta delta [try_catch bind console emit ret throw];
  unfold caller_id in Hc; unfold emits at 1 in Hc; unfold scanning at 1 in Hc;
  rewrite Hc; cbv beta iota.

Lemma scan_predictor_throws cfg orc req_user url u base w e evs :
  Js.present url = Some u -> Js.present (FLASK_URL cfg) = Some base ->
  callFlaskPredict orc base u (caller_id req_user) (emits [scanning u] w)
    = (Throw e, emits evs (emits [scanning u] w)) ->
  exists l, network l = [] /\
    post_scan_url cfg orc req_user url w
      = (Return (scan_failed e), emits (scanning u :: evs ++ scan_error_logged e :: l) w).
Proof.
  intros Hu Hb Hc.
  destruct (log_scan_error_consoles e (emits evs (emits [scanning u] w))) as [l [Hl Hn]].
  exists l. split; [exact Hn|].
  open_scan Hu Hb Hc. rewrite Hl. cbv beta iota. unfold scan_failed. f_equal.
  rewrite !emits_emits. reflexivity.
Qed.

Lemma scan_predicted_anonymous cfg orc url u base w r evs :
  Js.present url = Some u -> Js.present (FLASK_URL cfg) = Some base ->
  callFlaskPredict orc base u "anonymous" (emits [scanning u] w)
    = (Return (Some r), emits evs (emits [scanning u] w)) ->
  post_scan_url cfg orc None url w
    = (Return (scan_reply orc u r), emits (scanning u :: evs ++ [flask_result r]) w).
Proof.
  intros Hu Hb Hc. open_scan Hu Hb Hc. f_equal. same_world.
Qed.

Lemma scan_predicted_saved cfg orc user url u base w r evs :
  Js.present url = Some u -> Js.present (FLASK_URL cfg) = Some base ->
  callFlaskPredict orc base u (caller_id (Some user)) (emits [scanning u] w)
    = (Return (Some r), emits evs (emits [scanning u] w)) ->
  db_fault orc UrlCheckSave = None ->
  post_scan_url cfg orc (Some user) url w
    = (Return (scan_reply orc u r),
       emits (scanning u :: evs ++ [flask_result r; saved])
         (set_store (add_check (new_check orc (next_id (store w)) u r user) (store w)) w)).
Proof.
  intros Hu Hb Hc Hs. open_scan Hu Hb Hc.
  unfold new_id, UrlCheck_insert, db_write. rewrite Hs. simpl. f_equal. same_world.
Qed.

Lemma scan_predicted_save_fails cfg orc user url u base w r evs e :
  Js.present url = Some u -> Js.present (FLASK_URL cfg) = Some base ->
  callFlaskPredict orc base u (caller_id (Some user)) (emits [scanning u] w)
    = (Return (Some r), emits evs (emits [scanning u] w)) ->
  db_fault orc UrlCheckSave = Some e ->
  exists l, network l = [] /\
    post_scan_url cfg orc (Some user) url w
      = (Return (scan_failed e),
         emits (scanning u :: evs ++ flask_result r :: scan_error_logged e :: l)
           (set_store (bump_id (store w)) w)).
Proof.
  intros Hu Hb Hc Hs.
  destruct (log_scan_error_consoles e
    (emits (scanning u :: evs ++ [flask_result r]) (set_store (bump_id (store w)) w))) as [l [Hl Hn]].
  exists l. split; [exact Hn|].
  open_scan Hu Hb Hc.
  unfold new_id, UrlCheck_insert, db_write. rewrite Hs. simpl.
  match goal with |- context [log_scan_error e ?w0] =>
    replace w0 with (emits (scanning u :: evs ++ [flask_result r]) (set_store (bump_id (store w)) w))
      by same_world end.
  rewrite Hl. cbv beta iota. unfold scan_failed. f_equal.
  rewrite emits_emits. simpl. rewrite <- app_assoc. reflexivity.
Qed.

Lemma post_scan_url_returns cfg orc req_user url w :
  exists r, fst (post_scan_url cfg orc req_user url w) = Return r.
Proof.
  unfold post_scan_url, try_catch.
  match goal with |- context [match ?m w with _ => _ end] => destruct (m w) as [[r|e] w1] end.
  - eexists; reflexivity.
  - unfold bind. destruct (log_scan_error_consoles e w1) as [l [-> _]]. eexists; reflexivity.
Qed.

Lemma scan_anonymous_state cfg orc url w :
  same_state w (snd (post_scan_url cfg orc None url w)).
Proof.
  unfold post_scan_url.
  destruct (Js.present url) as [u|]; [|apply same_state_refl].
  destruct (Js.present (FLASK_URL cfg)) as [base|]; [|apply same_state_refl].
  cbv beta iota zeta delta [try_catch bind console emit ret throw].
  unfold callFlaskPredict.
  match goal with |- context [callFlaskPredict_loop ?o ?b ?x ?i ?n ?a ?w0] =>
    pose proof (callFlaskPredict_loop_state o b x i n a w0) as Hst;
    destruct (callFlaskPredict_loop o b x i n a w0) as [[[r|]|e] w1]
  end; destruct Hst as [A B]; simpl in A, B; simpl snd.
  - split; simpl; congruence.
  - split; simpl; congruence.
  - destruct (log_scan_error_consoles e w1) as [l [-> _]]. split; simpl; congruence.
Qed.

Lemma app_scan_anonymous cfg orc url w :
  session w = None ->
  app cfg orc (POST_scan_url url) w = post_scan_url cfg orc None url w.
Proof.
  intros Hs. unfold app, try_catch, bind, passport_session, bind, get_session.
  rewrite Hs. unfold ret.
  destruct (post_scan_url_returns cfg orc None url w) as [r Hr].
  destruct (post_scan_url cfg orc None url w) as [o w1]. simpl in Hr. subst o. reflexivity.
Qed.

(** C8. When the first POST to the predictor fails (any rejection of
    [axios.post], a network error or a timeout among them), the scan makes
    exactly one more POST, 250 ms after the first, and nothing else on the
    network.  When the second fails too, the client gets HTTP 500 "Scan failed"
    whose [error] is [errMsg] of the second failure, which is its message
    whenever it has one, and the database is as before. *)
Theorem predict_retries_once cfg orc req_user url u base w e1 :
  Js.present url = Some u ->
  Js.present (FLASK_URL cfg) = Some base ->
  flask_predict orc 1 = inr e1 ->
  let out := post_scan_url cfg orc req_user url w in
  let post := predict_post base u (caller_id req_user) in
  network (trace (snd out)) = (network (trace w) ++ [post; Sleep 250; post])%list /\
  forall e2, flask_predict orc 2 = inr e2 ->
    fst out = Return (scan_failed e2) /\
    status (scan_failed e2) = 500 /\
    (Js.truthy (Js.message e2) = true -> errMsg e2 = Js.message e2) /\
    store (snd out) = store w.
Proof.
  intros Hu Hb H1 out post. subst out post.
  destruct (flask_predict orc 2) as [r|e2] eqn:H2.
  - split; [|discriminate].
    pose proof (callFlaskPredict_retry_ok orc base u (caller_id req_user)
                  (emits [scanning u] w) e1 r H1 H2) as Hc.
    destruct req_user as [user|].
    + destruct (db_fault orc UrlCheckSave) as [e|] eqn:Hs.
      * destruct (scan_predicted_save_fails cfg orc user url u base w r _ e Hu Hb Hc Hs) as [l [Hn ->]]. net.
      * rewrite (scan_predicted_saved cfg orc user url u base w r _ Hu Hb Hc Hs). net.
    + rewrite (scan_predicted_anonymous cfg orc url u base w r _ Hu Hb Hc). net.
  - pose proof (callFlaskPredict_both_fail orc base u (caller_id req_user)
                  (emits [scanning u] w) e1 e2 H1 H2) as Hc.
    destruct (scan_predictor_throws cfg orc req_user url u base w e2 _ Hu Hb Hc) as [l [Hn ->]].
    split; [net|].
    intros e2' [= <-]. repeat split.
    intros Ht. unfold errMsg. now rewrite Ht.
Qed.

(** C8 at a predictor that refuses every connection. *)
Lemma predict_retries_once_witness :
  let out := post_scan_url cfg_configured orc_down (Some alice)
               (Some "http://evil.example") w_alice in
  let post := predict_post "http://127.0.0.1:7000" "http://evil.example" "1" in
  network (trace (snd out)) = [post; Sleep 250; post] /\
  fst out = Return (scan_failed ECONNREFUSED).
Proof.
  destruct (predict_retries_once cfg_configured orc_down (Some alice)
              (Some "http://evil.example") "http://evil.example" "http://127.0.0.1:7000"
              w_alice ECONNREFUSED eq_refl eq_refl eq_refl) as [Hn Hf].
  split; [exact Hn|]. exact (proj1 (Hf ECONNREFUSED eq_refl)).
Defined.

(** C1, amended.  For an authenticated scan with a url, a configured predictor
    and a prediction (at the first or at the second attempt), when the save
    of the UrlCheck rejects with [e] the handler answers HTTP 500 "Scan failed"
    with [errMsg e], stores no UrlCheck, and logs the failure: the [await
    newCheck.save()] sits in the one [try] of the handler. *)
Theorem scan_save_failure_surfaces cfg orc user url u base w r e :
  Js.present url = Some u ->
  Js.present (FLASK_URL cfg) = Some base ->
  flask_predict orc 1 = inl r \/
    (exists e1, flask_predict orc 1 = inr e1 /\ flask_predict orc 2 = inl r) ->
  db_fault orc UrlCheckSave = Some e ->
  let out := post_scan_url cfg orc (Some user) url w in
  fst out = Return (scan_failed e) /\
  urlchecks (store (snd out)) = urlchecks (store w) /\
  In (scan_error_logged e) (trace (snd out)).
Proof.
  intros Hu Hb Hp Hs out. subst out.
  assert (exists evs,
    callFlaskPredict orc base u (caller_id (Some user)) (emits [scanning u] w)
      = (Return (Some r), emits evs (emits [scanning u] w))) as [evs Hc].
  { destruct Hp as [H1|[e1 [H1 H2]]]; eexists.
    - apply callFlaskPredict_first_ok; exact H1.
    - eapply callFlaskPredict_retry_ok; eassumption. }
  destruct (scan_predicted_save_fails cfg orc user url u base w r evs e Hu Hb Hc Hs)
    as [l [_ ->]].
  repeat split. simpl. rewrite !in_app_iff. simpl. rewrite in_app_iff. simpl. tauto.
Qed.

(** C1, amended, at a save that rejects. *)
Lemma scan_save_failure_surfaces_witness :
  fst (post_scan_url cfg_configured orc_save_fails (Some alice) (Some "http://evil.example") w_alice)
    = Return (scan_failed write_failed).
Proof.
  apply (scan_save_failure_surfaces cfg_configured orc_save_fails alice
           (Some "http://evil.example") "http://evil.example" "http://127.0.0.1:7000"
           w_alice phishing_reply write_failed);
    [reflexivity | reflexivity | left; reflexivity | reflexivity].
Defined.

(** C1 as stated fails: the predictor answers, the save rejects, and the reply
    is the 500 and not the prediction. *)
Lemma scan_save_failure_not_hidden :
  let out := post_scan_url cfg_configured orc_save_fails (Some alice)
               (Some "http://evil.example") w_alice in
  flask_predict orc_save_fails 1 = inl phishing_reply /\
  db_fault orc_save_fails UrlCheckSave = Some write_failed /\
  fst out <> Return (scan_reply orc_save_fails "http://evil.example" phishing_reply) /\
  fst out = Return (status_json 500 (Json_message_error "Scan failed" "UrlCheck validation failed")).
Proof.
  cbv zeta. repeat split. vm_compute. discriminate.
Qed.

(** C2, amended.  POST /api/scan-url has no authentication gate: a request
    without a session runs the handler, never touches the database, and when
    it carries a url, the predictor is configured and answers, the predictor
    is called once with user "anonymous" and its prediction is returned. *)
Theorem scan_open_to_anonymous cfg orc url w :
  session w = None ->
  let out := app cfg orc (POST_scan_url url) w in
  store (snd out) = store w /\
  forall u base r,
    Js.present url = Some u ->
    Js.present (FLASK_URL cfg) = Some base ->
    flask_predict orc 1 = inl r ->
    fst out = Return (scan_reply orc u r) /\
    network (trace (snd out)) = (network (trace w) ++ [predict_post base u "anonymous"])%list.
Proof.
  intros Hs out. subst out. rewrite app_scan_anonymous by exact Hs. split.
  - apply scan_anonymous_state.
  - intros u base r Hu Hb H1.
    rewrite (scan_predicted_anonymous cfg orc url u base w r _ Hu Hb
               (callFlaskPredict_first_ok orc base u "anonymous" _ r H1)).
    split; [reflexivity|net].
Qed.

(** C2, amended, at a request without a session. *)
Lemma scan_open_to_anonymous_witness :
  session w_anonymous = None /\
  fst (app cfg_configured orc_ok (POST_scan_url (Some "http://evil.example")) w_anonymous)
    = Return (scan_reply orc_ok "http://evil.example" phishing_reply).
Proof.
  split; [reflexivity|].
  destruct (scan_open_to_anonymous cfg_configured orc_ok (Some "http://evil.example")
              w_anonymous eq_refl) as [_ H].
  apply (H "http://evil.example" "http://127.0.0.1:7000" phishing_reply); reflexivity.
Defined.

(** C2 as stated fails: an unauthenticated scan is answered 200 after the
    predictor was called, neither rejected nor redirected. *)
Lemma scan_anonymous_not_rejected :
  let out := app cfg_configured orc_ok (POST_scan_url (Some "http://evil.example")) w_anonymous in
  session w_anonymous = None /\
  (exists r, fst out = Return r /\ rejected r = false /\ status r = 200) /\
  In (predict_post "http://127.0.0.1:7000" "http://evil.example" "anonymous") (trace (snd out)).
Proof.
  cbv zeta. split; [reflexivity|]. split.
  - eexists. split; [vm_compute; reflexivity|]. split; reflexivity.
  - vm_compute. tauto.
Qed.

(** What POST /api/scan-url answers, by the url of the body, the
    configuration and the answers of the predictor. *)
Lemma post_scan_url_replies cfg orc req_user url w :
  match Js.present url with
  | None => fst (post_scan_url cfg orc req_user url w)
            = Return (status_json 400 (Json_message "URL is required"))
  | Some u =>
      match Js.present (FLASK_URL cfg) with
      | None => fst (post_scan_url cfg orc req_user url w)
                = Return (status_json 503
                            (Json_message_error "AI service is not configured."
                               "FLASK_SERVICE_NOT_CONFIGURED"))
      | Some base =>
          match flask_predict orc 1, flask_predict orc 2 with
          | inr _, inr e2 => fst (post_scan_url cfg orc req_user url w) = Return (scan_failed e2)
          | _, _ =>
              (exists r, fst (post_scan_url cfg orc req_user url w) = Return (scan_reply orc u r))
              \/ (exists e, fst (post_scan_url cfg orc req_user url w) = Return (scan_failed e))
          end
      end
  end.
Proof.
  destruct (Js.present url) as [u|] eqn:Hu.
  2:{ unfold post_scan_url. rewrite Hu. reflexivity. }
  destruct (Js.present (FLASK_URL cfg)) as [base|] eqn:Hb.
  2:{ unfold post_scan_url. rewrite Hu, Hb. reflexivity. }
  assert (forall r evs,
            callFlaskPredict orc base u (caller_id req_user) (emits [scanning u] w)
              = (Return (Some r), emits evs (emits [scanning u] w)) ->
            (exists r', fst (post_scan_url cfg orc req_user url w) = Return (scan_reply orc u r'))
            \/ (exists e, fst (post_scan_url cfg orc req_user url w) = Return (scan_failed e)))
    as Hanswered.
  { intros r evs Hc. destruct req_user as [user|].
    - destruct (db_fault orc UrlCheckSave) as [e|] eqn:Hs.
      + destruct (scan_predicted_save_fails cfg orc user url u base w r evs e Hu Hb Hc Hs)
          as [l [_ ->]]. right. now exists e.
      + rewrite (scan_predicted_saved cfg orc user url u base w r evs Hu Hb Hc Hs).
        left. now exists r.
    - rewrite (scan_predicted_anonymous cfg orc url u base w r evs Hu Hb Hc).
      left. now exists r. }
  destruct (flask_predict orc 1) as [r1|e1] eqn:H1.
  - eapply Hanswered. apply callFlaskPredict_first_ok. exact H1.
  - destruct (flask_predict orc 2) as [r2|e2] eqn:H2.
    + eapply Hanswered. eapply callFlaskPredict_retry_ok; eassumption.
    + destruct (scan_predictor_throws cfg orc req_user url u base w e2 _ Hu Hb
                  (callFlaskPredict_both_fail orc base u (caller_id req_user) _ e1 e2 H1 H2))
        as [l [_ ->]]. reflexivity.
Qed.

(** C7, amended.  A scan that carries a url while neither FLASK_URL nor
    FLASK_SERVICE_URL is set is answered 503 "AI service is not configured."
    with the error code FLASK_SERVICE_NOT_CONFIGURED, and nothing happens:
    no call, no log, no UrlCheck.  The status tells this reply from a
    failure of the predictor: no scan of a configured process is answered
    503, under any answers of the outside world, and a scan whose predictor
    fails at both attempts is answered 500 "Scan failed", with the message
    of the second failure as its [error] when that message is not empty. *)
Theorem scan_unconfigured cfg orc req_user url u w :
  Js.present url = Some u ->
  Js.present (FLASK_URL cfg) = None ->
  post_scan_url cfg orc req_user url w
    = (Return (status_json 503
                 (Json_message_error "AI service is not configured."
                    "FLASK_SERVICE_NOT_CONFIGURED")), w) /\
  (forall e, fst (post_scan_url cfg orc req_user url w) <> Return (scan_failed e)) /\
  (forall cfg' orc' req_user' url' w' r,
     fst (post_scan_url cfg' orc' req_user' url' w') = Return r ->
     status r = 503 ->
     Js.present (FLASK_URL cfg') = None) /\
  (forall cfg' orc' req_user' url' u' base w' e1 e2,
     Js.present url' = Some u' ->
     Js.present (FLASK_URL cfg') = Some base ->
     flask_predict orc' 1 = inr e1 ->
     flask_predict orc' 2 = inr e2 ->
     fst (post_scan_url cfg' orc' req_user' url' w') = Return (scan_failed e2) /\
     status (scan_failed e2) = 500 /\
     (Js.truthy (Js.message e2) = true ->
      scan_failed e2 = status_json 500 (Json_message_error "Scan failed" (Js.message e2)))).
Proof.
  intros Hu Hb. split; [|split; [|split]].
  - unfold post_scan_url. rewrite Hu, Hb. reflexivity.
  - intros e. unfold post_scan_url. rewrite Hu, Hb. simpl. discriminate.
  - intros cfg' orc' req_user' url' w' r Hr Hst.
    pose proof (post_scan_url_replies cfg' orc' req_user' url' w') as H.
    rewrite Hr in H.
    destruct (Js.present url') as [u'|].
    2:{ injection H as ->. discriminate. }
    destruct (Js.present (FLASK_URL cfg')) as [base|]; [exfalso|reflexivity].
    assert ((exists r', Return r = Return (scan_reply orc' u' r'))
            \/ (exists e, Return r = Return (scan_failed e))) as [[r' Hx]|[e Hx]].
    { destruct (flask_predict orc' 1); [exact H|].
      destruct (flask_predict orc' 2); [exact H|]. right. eexists. exact H. }
    all: injection Hx as ->; discriminate.
  - intros cfg' orc' req_user' url' u' base w' e1 e2 Hu' Hb' H1 H2.
    pose proof (post_scan_url_replies cfg' orc' req_user' url' w') as H.
    rewrite Hu', Hb', H1, H2 in H.
    split; [exact H|]. split; [reflexivity|].
    intros Ht. unfold scan_failed, errMsg. now rewrite Ht.
Qed.

(** C7, amended, at an unconfigured process, and at a configured one whose
    predictor fails twice with a message that reads like the code: the
    status still tells the replies apart, the [error] field does not. *)
Lemma scan_unconfigured_witness :
  post_scan_url cfg_unconfigured orc_ok (Some alice) (Some "http://evil.example") w_alice
    = (Return (status_json 503
                 (Json_message_error "AI service is not configured."
                    "FLASK_SERVICE_NOT_CONFIGURED")), w_alice) /\
  fst (post_scan_url cfg_configured orc_code_like (Some alice) (Some "http://evil.example")
         w_alice)
    = Return (status_json 500
                (Json_message_error "Scan failed" "FLASK_SERVICE_NOT_CONFIGURED")).
Proof.
  pose proof (scan_unconfigured cfg_unconfigured orc_ok (Some alice)
                (Some "http://evil.example") "http://evil.example" w_alice
                eq_refl eq_refl) as [H503 [_ [_ H500]]].
  split; [exact H503|].
  destruct (H500 cfg_configured orc_code_like (Some alice) (Some "http://evil.example")
              "http://evil.example" "http://127.0.0.1:7000" w_alice
              code_like_failure code_like_failure eq_refl eq_refl eq_refl eq_refl)
    as [Hr [_ Hm]].
  rewrite Hr, (Hm eq_refl). reflexivity.
Defined.

(** C7 as stated fails: without a url the unconfigured process answers 400,
    the check of the url comes first. *)
Lemma scan_unconfigured_missing_url :
  Js.present (FLASK_URL cfg_unconfigured) = None /\
  post_scan_url cfg_unconfigured orc_ok (Some alice) None w_alice
    = (Return (status_json 400 (Json_message "URL is required")), w_alice) /\
  status (status_json 400 (Json_message "URL is required")) <> 503.
Proof.
  repeat split. simpl. discriminate.
Qed.

(* ------------------------------------------------------------------ *)
(** ** The scan history *)

Lemma matches_userId_nothing n c : matches UrlCheck.field [("userId", VId n)] c = false.
Proof. reflexivity. Qed.

Lemma matches_user n c : matches UrlCheck.field [("user", VId n)] c = owned_by n c.
Proof. unfold matches, UrlCheck.field, owned_by. simpl. apply andb_true_r. Qed.

Lemma filter_nothing {A} (f : A -> bool) l : (forall x, f x = false) -> List.filter f l = [].
Proof.
  intros H. induction l as [|x l IH]; simpl; [reflexivity|]. now rewrite H.
Qed.

(** Without strictQuery the two counts look for a path no UrlCheck has. *)
Lemma recent_scans_counts_nothing cfg orc user w :
  schema_strictQuery cfg = SQ_false ->
  (forall c, db_fault orc c = None) ->
  get_recent_scans cfg orc (Some user) w =
  (Return (json (Json_scans
                   (map UrlCheck.select (recent (Users._id user) (urlchecks (store w))))
                   0 0 0)), w).
Proof.
  intros Hsq Hdb.
  unfold get_recent_scans, try_catch, bind, UrlCheck_find_recent, UrlCheck_countDocuments,
    query, db_read. rewrite Hsq, !Hdb. unfold cast. cbv beta iota zeta.
  rewrite (filter_nothing (matches UrlCheck.field [("userId", VId (Users._id user))]))
    by apply matches_userId_nothing.
  rewrite (filter_nothing (matches UrlCheck.field
             [("userId", VId (Users._id user)); ("prediction", VStr "phishing")]))
    by reflexivity.
  unfold recent. rewrite (filter_ext _ _ (matches_user (Users._id user))). reflexivity.
Qed.

Lemma insert_desc_sorted c l :
  Sorted newer_or_same l -> Sorted newer_or_same (UrlCheck.insert_desc c l).
Proof.
  induction 1 as [|d r Hs IH Hd]; simpl.
  - repeat constructor.
  - destruct (Nat.leb (UrlCheck.checkedAt d) (UrlCheck.checkedAt c)) eqn:E.
    + apply Nat.leb_le in E. repeat constructor; assumption.
    + apply Nat.leb_gt in E. constructor; [exact IH|].
      destruct Hd as [|b r' Hb]; simpl.
      * constructor. unfold newer_or_same. lia.
      * destruct (Nat.leb (UrlCheck.checkedAt b) (UrlCheck.checkedAt c));
          constructor; unfold newer_or_same in *; lia.
Qed.

Lemma sort_desc_sorted l : Sorted newer_or_same (UrlCheck.sort_desc l).
Proof.
  induction l as [|c l IH]; simpl; [constructor|]. now apply insert_desc_sorted.
Qed.

Lemma insert_desc_perm c l : Permutation (c :: l) (UrlCheck.insert_desc c l).
Proof.
  induction l as [|d r IH]; simpl; [reflexivity|].
  destruct (Nat.leb (UrlCheck.checkedAt d) (UrlCheck.checkedAt c)); [reflexivity|].
  rewrite perm_swap. now constructor.
Qed.

Lemma sort_desc_perm l : Permutation l (UrlCheck.sort_desc l).
Proof.
  induction l as [|c l IH]; simpl; [constructor|].
  rewrite <- insert_desc_perm. now constructor.
Qed.

Lemma firstn_subset {A} n (l : list A) x : In x (firstn n l) -> In x l.
Proof.
  revert n. induction l as [|a l IH]; intros [|n]; simpl; try tauto.
  intros [->|H]; [now left|right; eauto].
Qed.

Lemma firstn_sorted {A} (R : A -> A -> Prop) n l : Sorted R l -> Sorted R (firstn n l).
Proof.
  intros Hs. revert n. induction Hs as [|d r Hs IH Hd]; intros [|n]; simpl; try constructor.
  - apply IH.
  - destruct Hd; destruct n; simpl; constructor. assumption.
Qed.

(** The list of recent scans: at most ten, the caller's own, newest first. *)
Lemma recent_spec uid l :
  length (recent uid l) <= 10 /\
  (forall c, In c (recent uid l) -> In c l /\ UrlCheck.user c = uid) /\
  Sorted newer_or_same (recent uid l).
Proof.
  unfold recent. split; [apply firstn_le_length|]. split.
  - intros c Hc. apply firstn_subset in Hc.
    apply (Permutation_in _ (Permutation_sym (sort_desc_perm _))) in Hc.
    apply filter_In in Hc. destruct Hc as [Hin Ho]. split; [exact Hin|].
    now apply Nat.eqb_eq in Ho.
  - apply firstn_sorted, sort_desc_sorted.
Qed.

(** C3.  Alice owns one scan, a phishing one; Bob owns another.  GET
    /api/recent-scans in the session of Alice lists her scan, but the counts filter on [userId], a path the
    documents (saved under [user]) do not have: total, phishingFound and
    legitimateFound are 0 0 0 without strictQuery, 2 1 1 with it (the counts
    of everybody), and the request fails with 500 when strictQuery throws;
    never the 1 1 0 of the claim. *)
Theorem recent_scans_counts_by_userId :
  let out sq := fst (app (cfg_strict sq) orc_ok GET_recent_scans w_history) in
  let mine := [UrlCheck.select scan_of_alice] in
  length (List.filter (owned_by (Users._id alice)) (urlchecks (store w_history))) = 1 /\
  out SQ_false = Return (json (Json_scans mine 0 0 0)) /\
  out SQ_true = Return (json (Json_scans mine 2 1 1)) /\
  out SQ_throw = Return (status_json 500 (Json_message "Error fetching scan history")) /\
  forall sq, out sq <> Return (json (Json_scans mine 1 1 0)).
Proof.
  cbv zeta. split; [reflexivity|]. split; [reflexivity|]. split; [reflexivity|].
  split; [reflexivity|]. intros sq. destruct sq; vm_compute; discriminate.
Qed.

(* ------------------------------------------------------------------ *)
(** ** loginLocal *)

Lemma LocalStrategy_verify_run cfg orc e p w :
  db_fault orc (UserFindOne (by_email e)) = None ->
  LocalStrategy_verify cfg orc e p w =
  (Return
     match find (matches Users.field (by_email e)) (users (store w)) with
     | None => DoneFalse "Incorrect email"
     | Some user =>
         match Js.present (Users.password user) with
         | None => DoneFalse "Please log in with Google"
         | Some hash => if bcrypt_compare orc p hash then DoneUser user
                        else DoneFalse "Incorrect password"
         end
     end, w).
Proof.
  intros Hf. unfold LocalStrategy_verify, try_catch, bind.
  fold (by_email e). rewrite User_findOne_email, Hf.
  destruct (find _ _) as [u|]; [|reflexivity].
  destruct (Js.present (Users.password u)) as [h|]; [|reflexivity].
  destruct (bcrypt_compare orc p h); reflexivity.
Qed.

(** C4.  A call of loginLocal (both fields present, the lookup answered): the
    account the email finds, with a stored hash that bcrypt accepts, is
    logged in and greeted with 200; an unknown email, an account without a
    hash and a wrong password all get the same bare 401 and leave the world
    as it was. *)
Theorem loginLocal_outcomes cfg orc email password e p w :
  Js.present email = Some e ->
  Js.present password = Some p ->
  db_fault orc (UserFindOne (by_email e)) = None ->
  (forall u h,
     find (matches Users.field (by_email e)) (users (store w)) = Some u ->
     Js.present (Users.password u) = Some h ->
     bcrypt_compare orc p h = true ->
     post_login cfg orc email password w =
     (Return (status_json 200
                (Json_login "Login success"
                   match Js.present (Users.name u) with
                   | Some n => n
                   | None => Js.split_head "@" e
                   end)),
      logged_in u w)) /\
  (login_failure orc (users (store w)) e p ->
     post_login cfg orc email password w = (Return unauthorized, w)).
Proof.
  intros He Hp Hf. unfold post_login, authenticate_local. rewrite He, Hp.
  split; unfold bind at 1; rewrite LocalStrategy_verify_run by exact Hf.
  - intros u h Fu Hh Hc. rewrite Fu, Hh, Hc.
    apply find_some in Fu. destruct Fu as [_ Hm]. apply matches_by_email in Hm.
    unfold logIn, username, bind, put_session, ret. rewrite Hm.
    destruct (Js.present (Users.name u)); reflexivity.
  - intros [Hu | u Fu Hn | u h Fu Hh Hc].
    + rewrite (find_none_unknown _ _ Hu). reflexivity.
    + rewrite Fu, Hn. reflexivity.
    + rewrite Fu, Hh, Hc. reflexivity.
Qed.

(** C4 at a database with a local and a Google-only account. *)
Lemma loginLocal_outcomes_witness :
  post_login cfg_configured orc_ok (Some "alice@example.org") (Some "correct horse") w_two_users
    = (Return (status_json 200 (Json_login "Login success" "Alice")), logged_in alice w_two_users)
  /\ post_login cfg_configured orc_ok (Some "alice@example.org") (Some "wrong") w_two_users
    = (Return unauthorized, w_two_users)
  /\ post_login cfg_configured orc_ok (Some "bob@example.org") (Some "wrong") w_two_users
    = (Return unauthorized, w_two_users)
  /\ post_login cfg_configured orc_ok (Some "carol@example.org") (Some "wrong") w_two_users
    = (Return unauthorized, w_two_users).
Proof.
  split; [|split; [|split]].
  - apply (proj1 (loginLocal_outcomes cfg_configured orc_ok (Some "alice@example.org")
             (Some "correct horse") "alice@example.org" "correct horse" w_two_users
             eq_refl eq_refl eq_refl) alice (toy_hash "correct horse" 10));
      reflexivity.
  - apply (proj2 (loginLocal_outcomes cfg_configured orc_ok (Some "alice@example.org")
             (Some "wrong") "alice@example.org" "wrong" w_two_users eq_refl eq_refl eq_refl)).
    apply (wrong_password _ _ _ _ alice (toy_hash "correct horse" 10)); reflexivity.
  - apply (proj2 (loginLocal_outcomes cfg_configured orc_ok (Some "bob@example.org")
             (Some "wrong") "bob@example.org" "wrong" w_two_users eq_refl eq_refl eq_refl)).
    apply (third_party_only _ _ _ _ bob_google_only); reflexivity.
  - apply (proj2 (loginLocal_outcomes cfg_configured orc_ok (Some "carol@example.org")
             (Some "wrong") "carol@example.org" "wrong" w_two_users eq_refl eq_refl eq_refl)).
    apply unknown_email. intros u [<-|[<-|[]]]; discriminate.
Defined.

(* ------------------------------------------------------------------ *)
(** ** signup *)

Lemma post_signup_run cfg orc e p n w :
  db_fault orc (UserFindOne (by_email e)) = None ->
  post_signup cfg orc e p n w =
  match find (matches Users.field (by_email e)) (users (store w)) with
  | Some _ => (Return conflict, w)
  | None =>
      match db_fault orc UserSave with
      | None => (Return created,
                 set_store (add_user (signup_user orc (next_id (store w)) e p n) (store w)) w)
      | Some err => (Return (status_json 500 (Json_message_error "Signup error" (Js.message err))),
                     set_store (bump_id (store w)) w)
      end
  end.
Proof.
  intros Hf. unfold post_signup, try_catch, bind. fold (by_email e).
  rewrite User_findOne_email, Hf.
  destruct (find _ _); [reflexivity|].
  unfold new_id, User_insert, db_write. simpl.
  destruct (db_fault orc UserSave); reflexivity.
Qed.

Lemma post_signup_created cfg orc e p n w w1 :
  post_signup cfg orc e p n w = (Return created, w1) ->
  find (matches Users.field (by_email e)) (users (store w)) = None /\
  w1 = set_store (add_user (signup_user orc (next_id (store w)) e p n) (store w)) w.
Proof.
  unfold post_signup, try_catch, bind. fold (by_email e). rewrite User_findOne_email.
  destruct (db_fault orc (UserFindOne (by_email e))); [discriminate|].
  destruct (find _ _); [discriminate|].
  unfold new_id, User_insert, db_write. simpl.
  destruct (db_fault orc UserSave); [discriminate|].
  intros [= <-]. split; reflexivity.
Qed.

(* ------------------------------------------------------------------ *)
(** ** loginExternal *)

(** What a successful loginExternal leaves behind: the user it hands back is
    the one a lookup by the Google id finds afterwards. *)
Lemma GoogleStrategy_verify_found cfg orc profile w u w1 :
  GoogleStrategy_verify cfg orc profile w = (Return (DoneUser u), w1) ->
  find (matches Users.field (by_googleId (id profile))) (users (store w1)) = Some u.
Proof.
  unfold GoogleStrategy_verify, try_catch. unfold bind at 1.
  fold (by_googleId (id profile)). rewrite User_findOne_googleId.
  destruct (db_fault orc (UserFindOne (by_googleId (id profile)))); [discriminate|].
  destruct (find _ (users (store w))) as [u0|] eqn:Fg.
  { intros [= <- <-]. exact Fg. }
  unfold bind at 1.
  destruct (Js.present (hd_error (emails profile))) as [e|].
  - unfold bind at 1. fold (by_email e). rewrite User_findOne_email.
    destruct (db_fault orc (UserFindOne (by_email e))); [discriminate|].
    destruct (find (matches Users.field (by_email e)) (users (store w))) as [u0|].
    + unfold bind, User_update, db_write.
      destruct (db_fault orc UserSave); [discriminate|].
      destruct (replace_user (link_google u0 (id profile)) (users (store w))) as [l|] eqn:Hr;
        [|discriminate].
      intros [= <- <-]. simpl.
      apply (replace_user_find _ _ _ _ Fg); [|exact Hr].
      apply matches_by_googleId. reflexivity.
    + unfold ret, bind, new_id, User_insert, db_write. simpl.
      destruct (db_fault orc UserSave); [discriminate|].
      intros [= <- <-]. simpl. rewrite (find_app_new _ _ _ Fg).
      replace (matches _ _ _) with true; [reflexivity|].
      symmetry. apply matches_by_googleId. reflexivity.
  - unfold ret, bind, new_id, User_insert, db_write. simpl.
    destruct (db_fault orc UserSave); [discriminate|].
    intros [= <- <-]. simpl. rewrite (find_app_new _ _ _ Fg).
    replace (matches _ _ _) with true; [reflexivity|].
    symmetry. apply matches_by_googleId. reflexivity.
Qed.

Lemma GoogleStrategy_verify_known cfg orc profile w u :
  db_fault orc (UserFindOne (by_googleId (id profile))) = None ->
  find (matches Users.field (by_googleId (id profile))) (users (store w)) = Some u ->
  GoogleStrategy_verify cfg orc profile w = (Return (DoneUser u), w).
Proof.
  intros Hf Fg. unfold GoogleStrategy_verify, try_catch. unfold bind at 1.
  fold (by_googleId (id profile)). rewrite User_findOne_googleId, Hf, Fg. reflexivity.
Qed.

(** Replacing a stored user by its [_id] succeeds. *)
Lemma replace_user_some u' l u0 :
  In u0 l -> Users._id u' = Users._id u0 -> exists l', replace_user u' l = Some l'.
Proof.
  intros Hin Hid. induction l as [|x l IH]; [destruct Hin|]. simpl.
  destruct (Nat.eqb (Users._id x) (Users._id u')) eqn:E; [eexists; reflexivity|].
  destruct Hin as [->|Hin]; [rewrite Hid, Nat.eqb_refl in E; discriminate|].
  destruct (IH Hin) as [l' ->]. eexists; reflexivity.
Qed.

(** When the database answers, loginExternal always hands back a user. *)
Lemma GoogleStrategy_verify_succeeds cfg orc profile w :
  (forall c, db_fault orc c = None) ->
  exists u w1,
    GoogleStrategy_verify cfg orc profile w = (Return (DoneUser u), w1) /\
    session w1 = session w /\ trace w1 = trace w.
Proof.
  intros Hdb. unfold GoogleStrategy_verify, try_catch. unfold bind at 1.
  fold (by_googleId (id profile)). rewrite User_findOne_googleId, Hdb.
  destruct (find _ (users (store w))) as [u0|] eqn:Fg.
  { exists u0, w. repeat split. }
  unfold bind at 1.
  destruct (Js.present (hd_error (emails profile))) as [e|].
  - unfold bind at 1. fold (by_email e). rewrite User_findOne_email, Hdb.
    destruct (find (matches Users.field (by_email e)) (users (store w))) as [u0|] eqn:Fe.
    + unfold bind, User_update, db_write. rewrite Hdb.
      apply find_some in Fe. destruct Fe as [Hin _].
      destruct (replace_user_some (link_google u0 (id profile)) _ u0 Hin eq_refl) as [l ->].
      eexists; eexists. repeat split.
    + unfold ret, bind, new_id, User_insert, db_write. simpl. rewrite Hdb.
      eexists; eexists. repeat split.
  - unfold ret, bind, new_id, User_insert, db_write. simpl. rewrite Hdb.
    eexists; eexists. repeat split.
Qed.

(** C5.  For every Google id: when the database answers, loginExternal
    returns a user [u] (found, linked or created), stored under that id,
    and a second loginExternal with the same Google id (whatever else the
    profile says) returns [u] again and changes nothing, so it creates no
    user.  The second call repeats the result of any first call that
    returned a user. *)
Theorem loginExternal_idempotent cfg orc1 orc2 profile1 profile2 w :
  id profile2 = id profile1 ->
  db_fault orc2 (UserFindOne (by_googleId (id profile1))) = None ->
  (forall u w1,
     GoogleStrategy_verify cfg orc1 profile1 w = (Return (DoneUser u), w1) ->
     GoogleStrategy_verify cfg orc2 profile2 w1 = (Return (DoneUser u), w1)) /\
  ((forall c, db_fault orc1 c = None) ->
   exists u w1,
     GoogleStrategy_verify cfg orc1 profile1 w = (Return (DoneUser u), w1) /\
     GoogleStrategy_verify cfg orc2 profile2 w1 = (Return (DoneUser u), w1) /\
     In u (users (store w1)) /\
     Users.googleId u = Some (id profile1)).
Proof.
  intros Hid Hf.
  assert (forall u w1,
            GoogleStrategy_verify cfg orc1 profile1 w = (Return (DoneUser u), w1) ->
            GoogleStrategy_verify cfg orc2 profile2 w1 = (Return (DoneUser u), w1)) as Hsecond.
  { intros u w1 H1. apply GoogleStrategy_verify_known; rewrite Hid; [exact Hf|].
    eapply GoogleStrategy_verify_found. exact H1. }
  split; [exact Hsecond|]. intros Hdb.
  destruct (GoogleStrategy_verify_succeeds cfg orc1 profile1 w Hdb) as [u [w1 [H1 _]]].
  exists u, w1. split; [exact H1|]. split; [now apply Hsecond|].
  pose proof (GoogleStrategy_verify_found _ _ _ _ _ _ H1) as F.
  apply find_some in F. destruct F as [Hin Hm].
  split; [exact Hin|]. now apply matches_by_googleId.
Qed.

(** C5 at an account first linked by email, then found by its Google id, and
    at a Google id the empty database has never seen. *)
Lemma loginExternal_idempotent_witness :
  GoogleStrategy_verify cfg_configured orc_ok alice_renamed_on_google w_alice_linked
    = (Return (DoneUser (link_google alice "google-2001")), w_alice_linked) /\
  exists u w1,
    GoogleStrategy_verify cfg_configured orc_ok bob_on_google w_empty
      = (Return (DoneUser u), w1) /\
    GoogleStrategy_verify cfg_configured orc_ok bob_on_google w1
      = (Return (DoneUser u), w1) /\
    In u (users (store w1)) /\
    Users.googleId u = Some "google-1002".
Proof.
  split.
  - apply (proj1 (loginExternal_idempotent cfg_configured orc_ok orc_ok alice_on_google
                    alice_renamed_on_google w_two_users eq_refl eq_refl));
      reflexivity.
  - apply (proj2 (loginExternal_idempotent cfg_configured orc_ok orc_ok bob_on_google
                    bob_on_google w_empty eq_refl eq_refl)).
    intros c. reflexivity.
Defined.

(** The link, when [u] is the only user with its email and with its [_id]. *)
Lemma loginExternal_links_by_email cfg orc profile w u e :
  In u (users (store w)) ->
  Users.email u = Some e ->
  hd_error (emails profile) = Some e ->
  Js.truthy e = true ->
  (forall v, In v (users (store w)) -> Users.googleId v <> Some (id profile)) ->
  (forall v, In v (users (store w)) -> Users.email v = Some e -> v = u) ->
  (forall v, In v (users (store w)) -> Users._id v = Users._id u -> v = u) ->
  (forall c, db_fault orc c = None) ->
  let u' := link_google u (id profile) in
  exists l1 l2,
    users (store w) = (l1 ++ u :: l2)%list /\
    GoogleStrategy_verify cfg orc profile w =
      (Return (DoneUser u'), set_store (with_users (l1 ++ u' :: l2) (store w)) w) /\
    Users.googleId u' = Some (id profile) /\
    Users.email u' = Users.email u /\
    Users.password u' = Users.password u /\
    Users.name u' = Users.name u /\
    Users._id u' = Users._id u.
Proof.
  intros Hin He Hp Ht Hfirst Hemail Hid Hdb u'.
  destruct (replace_user_at u u' (users (store w)) Hin eq_refl Hid) as [l1 [l2 [Hl Hr]]].
  exists l1, l2. split; [exact Hl|]. split; [|repeat split].
  unfold GoogleStrategy_verify, try_catch. unfold bind at 1.
  fold (by_googleId (id profile)). rewrite User_findOne_googleId, Hdb.
  rewrite (find_none_googleId _ _ Hfirst).
  unfold bind at 1. rewrite Hp. unfold Js.present, Js.truthy_opt. rewrite Ht.
  unfold bind at 1. fold (by_email e). rewrite User_findOne_email, Hdb.
  rewrite (find_by_email_unique e u _ Hin He Hemail).
  unfold bind, User_update, db_write. rewrite Hdb. fold u'. rewrite Hr. reflexivity.
Qed.

Lemma wf_two_users : wf_store (store w_two_users).
Proof.
  split; [|split]; simpl.
  - repeat constructor; simpl; intuition discriminate.
  - intros u [<-|[<-|[]]]; simpl; lia.
  - intros u v e [<-|[<-|[]]] [<-|[<-|[]]]; simpl; congruence.
Qed.

(** C6.  In a well-formed database, a first Google login (no user has the
    Google id yet) whose email is the email of the stored user [u] returns
    [u] with its [googleId] set to the Google id, stores it in the place of
    [u], and leaves email, password, name and [_id] of [u] as they were. *)
Theorem loginExternal_links_account cfg orc profile w u e :
  wf_store (store w) ->
  In u (users (store w)) ->
  Users.email u = Some e ->
  hd_error (emails profile) = Some e ->
  Js.truthy e = true ->
  (forall v, In v (users (store w)) -> Users.googleId v <> Some (id profile)) ->
  (forall c, db_fault orc c = None) ->
  let u' := link_google u (id profile) in
  exists l1 l2,
    users (store w) = (l1 ++ u :: l2)%list /\
    GoogleStrategy_verify cfg orc profile w =
      (Return (DoneUser u'), set_store (with_users (l1 ++ u' :: l2) (store w)) w) /\
    Users.googleId u' = Some (id profile) /\
    Users.email u' = Users.email u /\
    Users.password u' = Users.password u /\
    Users.name u' = Users.name u /\
    Users._id u' = Users._id u.
Proof.
  intros [Hn [_ He]] Hin Eu Hp Ht Hfirst Hdb.
  apply loginExternal_links_by_email with (e := e); try assumption.
  - intros v Hv Ev. symmetry. now apply (He u v e).
  - intros v Hv Iv. now apply (NoDup_map_inj Users._id (users (store w))).
Qed.

(** C6 at the local account of Alice. *)
Lemma loginExternal_links_account_witness :
  GoogleStrategy_verify cfg_configured orc_ok alice_on_google w_two_users
    = (Return (DoneUser (link_google alice "google-2001")), w_alice_linked) /\
  Users.email (link_google alice "google-2001") = Users.email alice /\
  Users.password (link_google alice "google-2001") = Users.password alice.
Proof.
  destruct (loginExternal_links_account cfg_configured orc_ok alice_on_google w_two_users alice
              "alice@example.org" wf_two_users (or_introl eq_refl) eq_refl eq_refl eq_refl)
    as [l1 [l2 [Hl [Hv [_ [He [Hp _]]]]]]].
  - intros v [<-|[<-|[]]]; discriminate.
  - reflexivity.
  - split; [|split; assumption]. reflexivity.
Defined.

(* ------------------------------------------------------------------ *)
(** ** What a request can do to the database *)

Lemma same_store_change w w' : store w' = store w -> store_change (store w) (store w').
Proof. intros ->. constructor. Qed.

Lemma GoogleStrategy_verify_change cfg orc profile w :
  store_change (store w) (store (snd (GoogleStrategy_verify cfg orc profile w))).
Proof.
  unfold GoogleStrategy_verify, try_catch. unfold bind at 1.
  fold (by_googleId (id profile)). rewrite User_findOne_googleId.
  destruct (db_fault orc (UserFindOne (by_googleId (id profile)))); [constructor|].
  destruct (find _ (users (store w))) as [u0|] eqn:Fg; [constructor|].
  unfold bind at 1.
  destruct (Js.present (hd_error (emails profile))) as [e|] eqn:Pe.
  - unfold bind at 1. fold (by_email e). rewrite User_findOne_email.
    destruct (db_fault orc (UserFindOne (by_email e))); [constructor|].
    destruct (find (matches Users.field (by_email e)) (users (store w))) as [u0|] eqn:Fe.
    + unfold bind, User_update, db_write.
      destruct (db_fault orc UserSave); [constructor|].
      destruct (replace_user (link_google u0 (id profile)) (users (store w))) as [l|] eqn:Hr;
        [|constructor].
      simpl. exact (sc_link _ u0 (id profile) e l Fg Fe Hr).
    + unfold ret, bind, new_id, User_insert, db_write. simpl.
      destruct (db_fault orc UserSave); simpl; [apply sc_bump|].
      apply (sc_google _ profile Fg). intros e' He'. congruence.
  - unfold ret, bind, new_id, User_insert, db_write. simpl.
    destruct (db_fault orc UserSave); simpl; [apply sc_bump|].
    apply (sc_google _ profile Fg). intros e' He'. congruence.
Qed.

Lemma get_google_callback_change cfg orc profile w :
  store_change (store w) (store (snd (get_google_callback cfg orc profile w))).
Proof.
  unfold get_google_callback, authenticate_google, bind.
  pose proof (GoogleStrategy_verify_change cfg orc profile w) as H.
  destruct (GoogleStrategy_verify cfg orc profile w) as [[[e|info|u]|e] w1]; exact H.
Qed.

Lemma post_signup_change cfg orc e p n w :
  store_change (store w) (store (snd (post_signup cfg orc e p n w))).
Proof.
  unfold post_signup, try_catch, bind. fold (by_email e). rewrite User_findOne_email.
  destruct (db_fault orc (UserFindOne (by_email e))); [constructor|].
  destruct (find _ _) eqn:Fe; [constructor|].
  unfold new_id, User_insert, db_write. simpl.
  destruct (db_fault orc UserSave); simpl; [apply sc_bump|].
  exact (sc_signup _ orc e p n Fe).
Qed.

Lemma post_login_store cfg orc email password w :
  store (snd (post_login cfg orc email password w)) = store w.
Proof.
  unfold post_login, authenticate_local.
  destruct (Js.present email) as [e|]; [|reflexivity].
  destruct (Js.present password) as [p|]; [|reflexivity].
  unfold bind at 1, LocalStrategy_verify, try_catch, bind at 1.
  fold (by_email e). rewrite User_findOne_email.
  destruct (db_fault orc (UserFindOne (by_email e))); [reflexivity|].
  destruct (find _ _) as [u|]; [|reflexivity].
  destruct (Js.present (Users.password u)) as [h|]; [|reflexivity].
  destruct (bcrypt_compare orc p h); [|reflexivity].
  unfold logIn, username, bind, put_session, ret, throw. simpl.
  destruct (Js.present (Users.name u)); [reflexivity|].
  destruct (Users.email u); reflexivity.
Qed.

Lemma get_current_user_store req_user w :
  store (snd (get_current_user req_user w)) = store w.
Proof.
  unfold get_current_user, username, bind, ret, throw.
  destruct req_user as [u|]; [|reflexivity].
  destruct (Js.present (Users.name u)); [reflexivity|].
  destruct (Users.email u); reflexivity.
Qed.

Lemma get_recent_scans_store cfg orc req_user w :
  store (snd (get_recent_scans cfg orc req_user w)) = store w.
Proof.
  unfold get_recent_scans, try_catch, bind, UrlCheck_find_recent, UrlCheck_countDocuments,
    query, db_read, throw, ret, console, emit.
  destruct req_user as [u|]; [|reflexivity].
  repeat match goal with
         | |- context [match cast ?a ?b ?c with _ => _ end] => destruct (cast a b c)
         | |- context [match db_fault ?o ?c with _ => _ end] => destruct (db_fault o c)
         end; reflexivity.
Qed.

Lemma passport_session_store orc w :
  store (snd (passport_session orc w)) = store w.
Proof.
  unfold passport_session, bind, get_session, deserializeUser, try_catch, bind,
    User_findById, db_read, put_session, ret, throw.
  destruct (session w) as [uid|]; [|reflexivity].
  destruct (db_fault orc (UserFindById uid)); [reflexivity|].
  destruct (find _ _); reflexivity.
Qed.

Lemma post_scan_url_change cfg orc req_user url w :
  store_change (store w) (store (snd (post_scan_url cfg orc req_user url w))).
Proof.
  destruct req_user as [user|];
    [|apply same_store_change, scan_anonymous_state].
  unfold post_scan_url.
  destruct (Js.present url) as [u|]; [|constructor].
  destruct (Js.present (FLASK_URL cfg)) as [base|]; [|constructor].
  cbv beta iota zeta delta [try_catch bind console emit ret throw].
  unfold callFlaskPredict.
  match goal with |- context [callFlaskPredict_loop ?o ?b ?x ?i ?n ?a ?w0] =>
    pose proof (callFlaskPredict_loop_state o b x i n a w0) as Hst;
    destruct (callFlaskPredict_loop o b x i n a w0) as [[[r|]|e] w1]
  end; destruct Hst as [A B]; simpl in A, B.
  - unfold new_id, UrlCheck_insert, db_write. simpl.
    destruct (db_fault orc UrlCheckSave) as [e|]; simpl.
    + match goal with |- context [log_scan_error e ?w0] =>
        destruct (log_scan_error_consoles e w0) as [l [-> _]] end.
      simpl. rewrite A. apply sc_bump.
    + rewrite A. apply sc_check. reflexivity.
  - simpl. rewrite A. constructor.
  - destruct (log_scan_error_consoles e w1) as [l [-> _]]. simpl. rewrite A. constructor.
Qed.

(** Every request changes the database in one of the ways of [store_change]. *)
Lemma app_store_change cfg orc r w :
  store_change (store w) (store (snd (app cfg orc r w))).
Proof.
  unfold app, try_catch. unfold bind at 1.
  pose proof (passport_session_store orc w) as Hs.
  destruct (passport_session orc w) as [[req_user|e] w0]; simpl in Hs;
    [|simpl; rewrite Hs; constructor].
  rewrite <- Hs.
  assert (forall (m : M response),
            store_change (store w0) (store (snd (m w0))) ->
            store_change (store w0)
              (store (snd (let (o, w') := m w0 in
                           match o with
                           | Return a => (Return a, w')
                           | Throw e => error_middleware cfg e w'
                           end)))) as Hcatch.
  { intros m Hm. destruct (m w0) as [[a|e] w1]; exact Hm. }
  apply Hcatch. destruct r.
  - apply post_signup_change.
  - apply same_store_change, post_login_store.
  - apply get_google_callback_change.
  - apply same_store_change, get_current_user_store.
  - apply post_scan_url_change.
  - apply same_store_change, get_recent_scans_store.
  - destruct req_user; constructor.
  - destruct req_user; constructor.
  - constructor.
Qed.

Lemma store_change_auth_path s s' :
  store_change s s' -> all_have_auth_path s -> all_have_auth_path s'.
Proof.
  intros Hc Hs. destruct Hc as [| |orc e p n _|profile _ _|u0 g e l _ _ Hr|c _];
    try exact Hs; intros u Hu; simpl in Hu.
  - apply in_app_or in Hu. destruct Hu as [Hu|[<-|[]]]; [now apply Hs|].
    left. discriminate.
  - apply in_app_or in Hu. destruct Hu as [Hu|[<-|[]]]; [now apply Hs|].
    right. discriminate.
  - destruct (replace_user_In _ _ _ _ Hr Hu) as [Hin| ->]; [now apply Hs|].
    right. discriminate.
Qed.

(** C10.  Whatever requests follow, with whatever answers of the outside world,
    every stored user keeps an authentication path: the users signup and
    loginExternal create have one, and linking only adds one. *)
Theorem auth_path_invariant cfg rs w :
  all_have_auth_path (store w) ->
  all_have_auth_path (store (run cfg rs w)).
Proof.
  revert w. induction rs as [|[orc r] rs IH]; intros w Hw; simpl; [exact Hw|].
  apply IH. eapply store_change_auth_path; [apply app_store_change|exact Hw].
Qed.

(** C10 from the empty database: a signup, a Google login that creates a user,
    a Google login that links the first one, a scan whose save fails. *)
Lemma auth_path_invariant_witness :
  all_have_auth_path (store w_empty) /\
  all_have_auth_path
    (store (run cfg_configured
              [(orc_ok, POST_signup "alice@example.org" "correct horse" (Some "Alice"));
               (orc_ok, GET_google_callback bob_on_google);
               (orc_ok, GET_google_callback alice_on_google);
               (orc_save_fails, POST_scan_url (Some "http://evil.example"))]
              w_empty)).
Proof.
  assert (all_have_auth_path (store w_empty)) as H by (intros u []).
  split; [exact H|]. apply auth_path_invariant. exact H.
Defined.

Lemma wf_add_user u s :
  wf_store s -> Users._id u = next_id s ->
  (forall e, Users.email u = Some e -> Js.truthy e = true ->
             forall v, In v (users s) -> Users.email v <> Some e) ->
  wf_store (add_user u s).
Proof.
  intros [Hn [Hb He]] Hid Hnew. unfold wf_store; simpl. split; [|split].
  - rewrite map_app. simpl. apply NoDup_app_remove_l with (l := []). simpl.
    apply Permutation_NoDup with (l := Users._id u :: map Users._id (users s)).
    + apply Permutation_cons_append.
    + constructor; [|exact Hn]. intros Hin. apply in_map_iff in Hin.
      destruct Hin as [v [Hv Hin]]. apply Hb in Hin. lia.
  - intros v Hv. apply in_app_or in Hv. destruct Hv as [Hv|[<-|[]]]; [|lia].
    apply Hb in Hv. lia.
  - intros a b e Ha Hb' Ea Eb Ht.
    apply in_app_or in Ha. apply in_app_or in Hb'.
    destruct Ha as [Ha|[<-|[]]], Hb' as [Hb'|[<-|[]]].
    + eapply He; eassumption.
    + exfalso. exact (Hnew e Eb Ht a Ha Ea).
    + exfalso. exact (Hnew e Ea Ht b Hb' Eb).
    + reflexivity.
Qed.

Lemma store_change_wf s s' : store_change s s' -> wf_store s -> wf_store s'.
Proof.
  intros Hc Hs. destruct Hc as [| |orc e p n Fe|profile Fg Fe|u0 g e l Fg Fe Hr|c Hid].
  - exact Hs.
  - destruct Hs as [Hn [Hb He]]. split; [exact Hn|]. split; [|exact He].
    intros u Hu. simpl. apply Hb in Hu. lia.
  - apply wf_add_user; [exact Hs|reflexivity|].
    simpl. intros e' [= <-] _ v Hv. exact (find_none_email _ _ _ Fe Hv).
  - apply wf_add_user; [exact Hs|reflexivity|].
    simpl. intros e' He' Ht v Hv. apply (find_none_email e' (users s) v); [|exact Hv].
    apply Fe. unfold Js.present, Js.truthy_opt. rewrite He', Ht. reflexivity.
  - destruct Hs as [Hn [Hb He]].
    assert (In u0 (users s)) as H0 by (apply find_some in Fe; tauto).
    unfold wf_store; simpl. split; [|split].
    + rewrite (replace_user_ids _ _ _ Hr). exact Hn.
    + intros v Hv. destruct (replace_user_origin _ _ _ _ _ H0 Hr Hv) as [v0 [Hv0 [-> _]]].
      now apply Hb.
    + intros a b e' Ha Hb' Ea Eb Ht.
      destruct (replace_user_origin _ _ _ _ _ H0 Hr Ha) as [a0 [Ha0 [Ia Ma]]].
      destruct (replace_user_origin _ _ _ _ _ H0 Hr Hb') as [b0 [Hb0 [Ib Mb]]].
      assert (a0 = b0) as E by (apply (He a0 b0 e'); congruence).
      apply (NoDup_map_inj Users._id l); [|exact Ha|exact Hb'|congruence].
      rewrite (replace_user_ids _ _ _ Hr). exact Hn.
  - destruct Hs as [Hn [Hb He]]. split; [exact Hn|]. split; [|exact He].
    intros u Hu. simpl. apply Hb in Hu. lia.
Qed.

(** Every run from a well-formed database stays well-formed. *)
Lemma run_wf cfg rs w : wf_store (store w) -> wf_store (store (run cfg rs w)).
Proof.
  revert w. induction rs as [|[orc r] rs IH]; intros w Hw; simpl; [exact Hw|].
  apply IH. eapply store_change_wf; [apply app_store_change|exact Hw].
Qed.

(* ------------------------------------------------------------------ *)
(** ** Sessions, pages and logout *)

Lemma orc_ok_answers w : session_answered orc_ok w.
Proof. intros uid _. reflexivity. Qed.

Lemma googleIds_two_users : googleIds_apart (store w_two_users).
Proof.
  intros u v g [<-|[<-|[]]] [<-|[<-|[]]]; simpl; congruence.
Qed.

(** [passport.session()], when the lookup is answered. *)
Lemma passport_session_run orc w :
  session_answered orc w ->
  passport_session orc w =
  (Return (session_user w),
   match session w, session_user w with
   | Some _, None => without_session w
   | _, _ => w
   end).
Proof.
  intros Ha. unfold passport_session, session_user, bind, get_session, deserializeUser,
    try_catch, bind, User_findById, db_read, put_session, ret, throw.
  destruct (session w) as [uid|] eqn:Hs; [|reflexivity].
  rewrite (Ha uid Hs). destruct (find _ _); reflexivity.
Qed.

(** A request whose session lookup is answered: the route runs with the user
    the session resolves to. *)
Lemma app_run cfg orc r w :
  session_answered orc w ->
  app cfg orc r w =
  let w0 := match session w, session_user w with
            | Some _, None => without_session w
            | _, _ => w
            end in
  try_catch
    (match r with
     | POST_signup email password name => post_signup cfg orc email password name
     | POST_login email password => post_login cfg orc email password
     | GET_google_callback profile => get_google_callback cfg orc profile
     | GET_current_user => get_current_user (session_user w)
     | POST_scan_url url => post_scan_url cfg orc (session_user w) url
     | GET_recent_scans => get_recent_scans cfg orc (session_user w)
     | GET_phishing => get_page (session_user w) "phishing.html"
     | GET_dashboard => get_page (session_user w) "dashboard.html"
     | GET_logout => get_logout
     end)
    (error_middleware cfg) w0.
Proof.
  intros Ha. unfold app, try_catch at 1, bind at 1.
  rewrite (passport_session_run orc w Ha). reflexivity.
Qed.

(** X1.  GET /dashboard and GET /phishing send their page exactly when the
    session resolves to a stored user; otherwise they redirect to /login.
    The database is not touched, and a session whose user is gone is cleared. *)
Theorem pages_need_a_stored_user cfg orc w :
  session_answered orc w ->
  let served file := match session_user w with
                     | Some _ => sendFile file
                     | None => redirect "/login"
                     end in
  fst (app cfg orc GET_dashboard w) = Return (served "dashboard.html") /\
  fst (app cfg orc GET_phishing w) = Return (served "phishing.html") /\
  store (snd (app cfg orc GET_dashboard w)) = store w /\
  store (snd (app cfg orc GET_phishing w)) = store w /\
  (session_user w = None ->
   session (snd (app cfg orc GET_dashboard w)) = None /\
   session (snd (app cfg orc GET_phishing w)) = None).
Proof.
  intros Ha served. subst served. rewrite !app_run by exact Ha.
  unfold try_catch, get_page, ret. cbv zeta.
  destruct (session_user w) as [u|] eqn:Hu; destruct (session w) as [uid|] eqn:Hs;
    simpl; repeat split; try discriminate; try reflexivity; try assumption.
Qed.

(** X1 at an anonymous client and at Alice. *)
Lemma pages_need_a_stored_user_witness :
  fst (app cfg_configured orc_ok GET_dashboard w_anonymous) = Return (redirect "/login") /\
  fst (app cfg_configured orc_ok GET_dashboard w_alice) = Return (sendFile "dashboard.html").
Proof.
  split.
  - exact (proj1 (pages_need_a_stored_user cfg_configured orc_ok w_anonymous
                    (orc_ok_answers _))).
  - exact (proj1 (pages_need_a_stored_user cfg_configured orc_ok w_alice (orc_ok_answers _))).
Defined.

(** X2.  When the lookup of the session's user rejects, no route runs: every
    request, logout included, is answered 500 "Internal server error" by the
    last error handler, which shows the message of the error only when
    NODE_ENV is "development"; the session and the database stay as they were. *)
Theorem session_lookup_fault_stops_request cfg orc r w uid e :
  session w = Some uid ->
  db_fault orc (UserFindById uid) = Some e ->
  app cfg orc r w = (Return (internal_error cfg e), emits [unhandled e] w).
Proof.
  intros Hs Hf. unfold app, try_catch, bind at 1.
  unfold passport_session, bind, get_session, deserializeUser, try_catch, bind,
    User_findById, db_read, ret, throw.
  rewrite Hs, Hf. reflexivity.
Qed.

(** X2 at a logout while the database is down. *)
Lemma session_lookup_fault_stops_request_witness :
  app cfg_configured orc_db_down GET_logout w_alice
    = (Return (status_json 500
                 (Json_message_error "Internal server error" "Something went wrong")),
       emits [unhandled mongo_down] w_alice).
Proof.
  exact (session_lookup_fault_stops_request cfg_configured orc_db_down GET_logout w_alice 1
           mongo_down eq_refl eq_refl).
Defined.

(** X3.  GET /logout redirects to / and leaves the client without a session,
    the database untouched; from then on the client is anonymous:
    current_user says [loggedIn: false], the dashboard redirects to /login
    and the history is the empty one. *)
Theorem logout_ends_session cfg orc w :
  session_answered orc w ->
  app cfg orc GET_logout w = (Return (redirect "/"), without_session w) /\
  forall orc',
    fst (app cfg orc' GET_current_user (without_session w))
      = Return (json (Json_current_user false None None)) /\
    fst (app cfg orc' GET_dashboard (without_session w)) = Return (redirect "/login") /\
    fst (app cfg orc' GET_recent_scans (without_session w))
      = Return (json (Json_no_scans "Login to see scan history" 0)).
Proof.
  intros Ha. split.
  - rewrite app_run by exact Ha. unfold try_catch, get_logout, bind, put_session, ret.
    cbv zeta. destruct (session w); destruct (session_user w); reflexivity.
  - intros orc'.
    assert (session_answered orc' (without_session w)) as Hb by (intros uid [=]).
    rewrite !app_run by exact Hb. repeat split.
Qed.

(** X3 at the session of Alice. *)
Lemma logout_ends_session_witness :
  app cfg_configured orc_ok GET_logout w_alice = (Return (redirect "/"), w_anonymous).
Proof.
  exact (proj1 (logout_ends_session cfg_configured orc_ok w_alice (orc_ok_answers _))).
Defined.

(** X4.  For a session user with neither a name nor an email (loginExternal
    stores one when the Google profile has neither), GET /api/current_user
    throws on [req.user.email.split] and is answered 500 by the last error
    handler. *)
Theorem current_user_needs_name_or_email cfg orc w u :
  session_answered orc w ->
  session_user w = Some u ->
  Js.present (Users.name u) = None ->
  Users.email u = None ->
  app cfg orc GET_current_user w
    = (Return (internal_error cfg split_of_undefined), emits [unhandled split_of_undefined] w).
Proof.
  intros Ha Hu Hn He. rewrite app_run by exact Ha. rewrite Hu.
  unfold try_catch, get_current_user, username, bind. rewrite Hn, He.
  destruct (session w); reflexivity.
Qed.

(** X4 at an account without name and email. *)
Lemma current_user_needs_name_or_email_witness :
  fst (app cfg_configured orc_ok GET_current_user w_ghost)
    = Return (status_json 500
                (Json_message_error "Internal server error" "Something went wrong")).
Proof.
  rewrite (current_user_needs_name_or_email cfg_configured orc_ok w_ghost ghost
             (orc_ok_answers _) eq_refl eq_refl eq_refl).
  reflexivity.
Defined.

(* ------------------------------------------------------------------ *)
(** ** Login, signup and the session they open *)

Lemma find_by_id l u :
  NoDup (map Users._id l) -> In u l ->
  find (fun x => Nat.eqb (Users._id x) (Users._id u)) l = Some u.
Proof.
  intros Hn Hin.
  destruct (find (fun x => Nat.eqb (Users._id x) (Users._id u)) l) as [v|] eqn:F.
  - apply find_some in F. destruct F as [Hv Hid]. apply Nat.eqb_eq in Hid.
    f_equal. exact (NoDup_map_inj Users._id l v u Hn Hv Hin Hid).
  - apply (find_none _ _ F) in Hin. rewrite Nat.eqb_refl in Hin. discriminate.
Qed.

Lemma session_user_logged_in u w :
  wf_store (store w) -> In u (users (store w)) -> session_user (logged_in u w) = Some u.
Proof.
  intros [Hn _] Hin. unfold session_user, logged_in. simpl. now apply find_by_id.
Qed.

(** X5.  After a login that answered 200 with [name], in a well-formed
    database, GET /api/current_user in the new session answers
    [loggedIn: true] with the same [name] and the email that logged in:
    the session id [serializeUser] kept resolves to the same user. *)
Theorem login_then_current_user cfg orc e p w name w1 :
  wf_store (store w) ->
  db_fault orc (UserFindOne (by_email e)) = None ->
  post_login cfg orc (Some e) (Some p) w
    = (Return (status_json 200 (Json_login "Login success" name)), w1) ->
  forall orc', session_answered orc' w1 ->
    app cfg orc' GET_current_user w1
      = (Return (json (Json_current_user true (Some name) (Some e))), w1).
Proof.
  intros Hwf Hf Hl orc' Ha.
  unfold post_login, authenticate_local, Js.present, Js.truthy_opt in Hl.
  destruct (Js.truthy e); [|discriminate]. destruct (Js.truthy p); [|discriminate].
  unfold bind at 1 in Hl. rewrite LocalStrategy_verify_run in Hl by exact Hf.
  destruct (find _ _) as [u|] eqn:Fu; [|discriminate].
  destruct (Js.present (Users.password u)) as [h|]; [|discriminate].
  destruct (bcrypt_compare orc p h); [|discriminate].
  apply find_some in Fu. destruct Fu as [Hin Hm]. apply matches_by_email in Hm.
  unfold logIn, username, bind, put_session, ret in Hl. rewrite Hm in Hl.
  assert (w1 = logged_in u w /\
          name = match Js.present (Users.name u) with
                 | Some n => n
                 | None => Js.split_head "@" e
                 end) as [-> ->].
  { destruct (Js.present (Users.name u)); injection Hl as <- <-; split; reflexivity. }
  rewrite app_run by exact Ha. rewrite (session_user_logged_in u w Hwf Hin).
  unfold try_catch, get_current_user, username, bind, ret. rewrite Hm. cbv zeta.
  destruct (Js.present (Users.name u)); reflexivity.
Qed.

(** X5 at the login of Alice. *)
Lemma login_then_current_user_witness :
  app cfg_configured orc_ok GET_current_user (logged_in alice w_two_users)
    = (Return (json (Json_current_user true (Some "Alice") (Some "alice@example.org"))),
       logged_in alice w_two_users).
Proof.
  apply (login_then_current_user cfg_configured orc_ok "alice@example.org" "correct horse"
           w_two_users "Alice" (logged_in alice w_two_users) wf_two_users eq_refl eq_refl
           orc_ok (orc_ok_answers _)).
Defined.

(** X6.  After a successful signup with a non-empty email and password, a
    login with the same email succeeds exactly with the passwords bcrypt
    accepts against the stored hash: it binds the session to the new user, and
    any password bcrypt refuses gets the bare 401. *)
Theorem signup_then_login cfg orc e p n w w1 orc' :
  post_signup cfg orc e p n w = (Return created, w1) ->
  Js.truthy e = true ->
  Js.truthy p = true ->
  Js.truthy (bcrypt_hash orc p 10) = true ->
  db_fault orc' (UserFindOne (by_email e)) = None ->
  (bcrypt_compare orc' p (bcrypt_hash orc p 10) = true ->
   exists name,
     post_login cfg orc' (Some e) (Some p) w1
       = (Return (status_json 200 (Json_login "Login success" name)),
          logged_in (signup_user orc (next_id (store w)) e p n) w1)) /\
  (forall p', Js.truthy p' = true ->
     bcrypt_compare orc' p' (bcrypt_hash orc p 10) = false ->
     post_login cfg orc' (Some e) (Some p') w1 = (Return unauthorized, w1)).
Proof.
  intros Hs He Hp Hh Hf. apply post_signup_created in Hs. destruct Hs as [Hnone ->].
  assert (find (matches Users.field (by_email e))
            (users (store (set_store (add_user (signup_user orc (next_id (store w)) e p n)
                                        (store w)) w)))
          = Some (signup_user orc (next_id (store w)) e p n)) as Hfind.
  { simpl. rewrite (find_app_new _ _ _ Hnone).
    replace (matches _ _ _) with true; [reflexivity|].
    symmetry. apply matches_by_email. reflexivity. }
  split.
  - intros Hc. unfold post_login, authenticate_local, Js.present, Js.truthy_opt.
    rewrite He, Hp. unfold bind at 1. rewrite LocalStrategy_verify_run by exact Hf.
    rewrite Hfind. cbn [Users.password signup_user]. unfold Js.present at 1, Js.truthy_opt.
    rewrite Hh, Hc.
    unfold logIn, username, bind, put_session, ret.
    cbn [Users.email Users.name signup_user].
    destruct (Js.present n); eexists; reflexivity.
  - intros p' Hp' Hc. unfold post_login, authenticate_local, Js.present, Js.truthy_opt.
    rewrite He, Hp'. unfold bind at 1. rewrite LocalStrategy_verify_run by exact Hf.
    rewrite Hfind. cbn [Users.password signup_user]. unfold Js.present at 1, Js.truthy_opt.
    rewrite Hh, Hc.
    reflexivity.
Qed.

(** X6 at a signup followed by a login with the same password. *)
Lemma signup_then_login_witness :
  exists name,
    post_login cfg_configured orc_ok (Some "carol@example.org") (Some "hunter2")
      (snd (post_signup cfg_configured orc_ok "carol@example.org" "hunter2" None w_alice))
    = (Return (status_json 200 (Json_login "Login success" name)),
       logged_in (signup_user orc_ok 2 "carol@example.org" "hunter2" None)
         (snd (post_signup cfg_configured orc_ok "carol@example.org" "hunter2" None w_alice))).
Proof.
  refine (proj1 (signup_then_login cfg_configured orc_ok "carol@example.org" "hunter2" None
                   w_alice _ orc_ok eq_refl eq_refl eq_refl eq_refl eq_refl) eq_refl).
Defined.

(* ------------------------------------------------------------------ *)
(** ** The history of a caller *)

Lemma cast_by_user sq n :
  cast sq UrlCheck.schema [("user", VId n)] = Some [("user", VId n)].
Proof. destruct sq; reflexivity. Qed.

Lemma filter_length_le {A} (f g : A -> bool) l :
  (forall x, f x = true -> g x = true) ->
  length (List.filter f l) <= length (List.filter g l).
Proof.
  intros H. induction l as [|x l IH]; simpl; [lia|].
  destruct (f x) eqn:Fx.
  - rewrite (H x Fx). simpl. lia.
  - destruct (g x); simpl; lia.
Qed.

(** The history when the database answers. *)
Lemma get_recent_scans_run cfg orc user w :
  schema_strictQuery cfg <> SQ_throw ->
  (forall c, db_fault orc c = None) ->
  exists total phishing,
    phishing <= total /\
    get_recent_scans cfg orc (Some user) w =
    (Return (json (Json_scans
                     (map UrlCheck.select (recent (Users._id user) (urlchecks (store w))))
                     (Z.of_nat total) (Z.of_nat phishing)
                     (Z.of_nat total - Z.of_nat phishing))), w).
Proof.
  intros Hsq Hdb.
  unfold get_recent_scans, try_catch, bind, UrlCheck_find_recent, UrlCheck_countDocuments,
    query, db_read. rewrite cast_by_user, !Hdb.
  unfold recent. rewrite (filter_ext _ _ (matches_user (Users._id user))).
  destruct (schema_strictQuery cfg); [| |congruence]; unfold cast; cbv beta iota zeta;
    simpl List.filter; rewrite ?Hdb; eexists; eexists; (split; [|reflexivity]).
  - apply filter_length_le. intros c. unfold matches. simpl. discriminate.
  - apply filter_length_le. reflexivity.
Qed.

(** X7.  When the database answers and strictQuery does not throw, the history
    of an authenticated caller is answered 200 and changes nothing; its [scans]
    are stored scans of the caller, at most ten, newest first, all of them
    when the caller has at most ten; and [total] is [phishingFound] plus a
    [legitimateFound] that is never negative. *)
Theorem recent_scans_lists_own_newest_first cfg orc user w :
  schema_strictQuery cfg <> SQ_throw ->
  (forall c, db_fault orc c = None) ->
  exists scans total phishing legitimate,
    get_recent_scans cfg orc (Some user) w
      = (Return (json (Json_scans (map UrlCheck.select scans) total phishing legitimate)), w) /\
    length scans <= 10 /\
    (forall c, In c scans -> In c (urlchecks (store w)) /\ UrlCheck.user c = Users._id user) /\
    Sorted newer_or_same scans /\
    (length (List.filter (owned_by (Users._id user)) (urlchecks (store w))) <= 10 ->
     forall c, In c (urlchecks (store w)) -> UrlCheck.user c = Users._id user -> In c scans) /\
    (total = phishing + legitimate)%Z /\ (0 <= legitimate)%Z.
Proof.
  intros Hsq Hdb.
  destruct (get_recent_scans_run cfg orc user w Hsq Hdb) as [t [ph [Hle Hr]]].
  destruct (recent_spec (Users._id user) (urlchecks (store w))) as [Hlen [Hown Hsort]].
  exists (recent (Users._id user) (urlchecks (store w))), (Z.of_nat t), (Z.of_nat ph),
    (Z.of_nat t - Z.of_nat ph)%Z.
  split; [exact Hr|]. split; [exact Hlen|]. split; [exact Hown|]. split; [exact Hsort|].
  split; [|lia].
  intros Hfew c Hc Hu. unfold recent.
  rewrite firstn_all2.
  - apply (Permutation_in _ (sort_desc_perm _)). apply filter_In. split; [exact Hc|].
    unfold owned_by. now apply Nat.eqb_eq.
  - rewrite <- (Permutation_length (sort_desc_perm _)). exact Hfew.
Qed.

(** X7 at the history of Alice. *)
Lemma recent_scans_lists_own_newest_first_witness :
  exists scans total phishing legitimate,
    get_recent_scans (cfg_strict SQ_true) orc_ok (Some alice) w_history
      = (Return (json (Json_scans (map UrlCheck.select scans) total phishing legitimate)),
         w_history) /\
    length scans <= 10 /\ (total = phishing + legitimate)%Z.
Proof.
  destruct (recent_scans_lists_own_newest_first (cfg_strict SQ_true) orc_ok alice w_history)
    as [scans [t [p [l [Hr [Hlen [_ [_ [_ [Hsum _]]]]]]]]]].
  - discriminate.
  - reflexivity.
  - exists scans, t, p, l. repeat split; assumption.
Defined.

Lemma insert_desc_older a c l :
  UrlCheck.checkedAt a < UrlCheck.checkedAt c ->
  UrlCheck.insert_desc a (c :: l) = c :: UrlCheck.insert_desc a l.
Proof.
  intros H. simpl. destruct (Nat.leb (UrlCheck.checkedAt c) (UrlCheck.checkedAt a)) eqn:E;
    [apply Nat.leb_le in E; lia|reflexivity].
Qed.

Lemma sort_desc_newest c l :
  (forall d, In d l -> UrlCheck.checkedAt d < UrlCheck.checkedAt c) ->
  UrlCheck.sort_desc (l ++ [c]) = c :: UrlCheck.sort_desc l.
Proof.
  induction l as [|a l IH]; intros H; simpl; [reflexivity|].
  rewrite IH by (intros d Hd; apply H; now right).
  apply insert_desc_older. apply H. now left.
Qed.

Lemma recent_newest uid c l :
  UrlCheck.user c = uid ->
  (forall d, In d l -> UrlCheck.user d = uid -> UrlCheck.checkedAt d < UrlCheck.checkedAt c) ->
  recent uid (l ++ [c]) = c :: firstn 9 (UrlCheck.sort_desc (List.filter (owned_by uid) l)).
Proof.
  intros Hc Hl. unfold recent. rewrite filter_app. simpl.
  replace (owned_by uid c) with true by (symmetry; unfold owned_by; now apply Nat.eqb_eq).
  rewrite sort_desc_newest; [reflexivity|].
  intros d Hd. apply filter_In in Hd. destruct Hd as [Hin Ho].
  apply Hl; [exact Hin|]. unfold owned_by in Ho. now apply Nat.eqb_eq in Ho.
Qed.

(** X8.  A scan that was saved with a clock later than every stored scan of
    the caller is appended to the collection and is the first entry of the
    caller's next history. *)
Theorem scan_then_history cfg orc user url u base w r :
  Js.present url = Some u ->
  Js.present (FLASK_URL cfg) = Some base ->
  flask_predict orc 1 = inl r ->
  db_fault orc UrlCheckSave = None ->
  (forall d, In d (urlchecks (store w)) -> UrlCheck.user d = Users._id user ->
             UrlCheck.checkedAt d < now_checkedAt orc) ->
  schema_strictQuery cfg <> SQ_throw ->
  let w1 := snd (post_scan_url cfg orc (Some user) url w) in
  let c := new_check orc (next_id (store w)) u r user in
  urlchecks (store w1) = (urlchecks (store w) ++ [c])%list /\
  forall orc', (forall q, db_fault orc' q = None) ->
    exists rest total phishing legitimate,
      get_recent_scans cfg orc' (Some user) w1
        = (Return (json (Json_scans (UrlCheck.select c :: rest) total phishing legitimate)),
           w1).
Proof.
  intros Hu Hb H1 Hs Hnew Hsq w1 c. subst w1.
  rewrite (scan_predicted_saved cfg orc user url u base w r _ Hu Hb
             (callFlaskPredict_first_ok orc base u _ _ r H1) Hs).
  split; [reflexivity|]. intros orc' Hdb.
  match goal with |- context [get_recent_scans _ _ _ ?w0] =>
    destruct (get_recent_scans_run cfg orc' user w0 Hsq Hdb) as [t [ph [_ Hr]]] end.
  rewrite Hr. simpl snd. simpl urlchecks.
  fold c. rewrite (recent_newest (Users._id user) c); [|reflexivity|exact Hnew].
  simpl map. repeat eexists.
Qed.

(** X8 at a scan of Alice two seconds after her first. *)
Lemma scan_then_history_witness :
  exists rest total phishing legitimate,
    get_recent_scans cfg_configured orc_ok (Some alice)
      (snd (post_scan_url cfg_configured orc_later (Some alice) (Some "http://new.example")
              w_history))
    = (Return (json (Json_scans
                       (UrlCheck.select
                          (new_check orc_later 5 "http://new.example" phishing_reply alice)
                        :: rest) total phishing legitimate)),
       snd (post_scan_url cfg_configured orc_later (Some alice) (Some "http://new.example")
              w_history)).
Proof.
  refine (proj2 (scan_then_history cfg_configured orc_later alice (Some "http://new.example")
                   "http://new.example" "http://127.0.0.1:7000" w_history phishing_reply
                   eq_refl eq_refl eq_refl eq_refl _ _) orc_ok (fun _ => eq_refl)).
  - intros d [<-|[<-|[]]]; simpl; intros H; [lia|discriminate].
  - discriminate.
Defined.

(* ------------------------------------------------------------------ *)
(** ** The scan handler and the predictor client, in general *)

Lemma present_truthy o s : Js.present o = Some s -> o = Some s /\ Js.truthy s = true.
Proof.
  unfold Js.present, Js.truthy_opt. destruct o as [x|]; [|discriminate].
  destruct (Js.truthy x) eqn:T; [|discriminate]. intros [= <-]. now split.
Qed.

(** X9.  The [error] text of a failed scan is never empty: it is the message
    of the error when that is not empty, else the body of the predictor's
    reply when the error has a response with a body whose text is not
    empty, else "Unknown scan error". *)
Theorem scan_error_text_never_empty e :
  Js.truthy (errMsg e) = true /\
  (Js.truthy (Js.message e) = true -> errMsg e = Js.message e) /\
  (Js.truthy (Js.message e) = false ->
   forall r d, Js.response e = Some r -> Js.err_data r = Some d -> Js.truthy d = true ->
   errMsg e = d) /\
  (Js.truthy (Js.message e) = false ->
   Js.response e = None \/
     (exists r, Js.response e = Some r /\
                (Js.err_data r = None \/ Js.err_data r = Some "")) ->
   errMsg e = "Unknown scan error").
Proof.
  unfold errMsg. split; [|split; [|split]].
  - destruct (Js.truthy (Js.message e)) eqn:T; [exact T|].
    destruct (Js.response e) as [r|]; [|reflexivity].
    destruct (Js.present (Js.err_data r)) as [d|] eqn:P; [|reflexivity].
    apply present_truthy in P. tauto.
  - intros T. now rewrite T.
  - intros T r d Hr Hd Td. rewrite T, Hr. unfold Js.present, Js.truthy_opt.
    now rewrite Hd, Td.
  - intros T [Hr|[r [Hr [Hd|Hd]]]]; rewrite T, Hr; [reflexivity| |]; now rewrite Hd.
Qed.

(** The three ways callFlaskPredict can go. *)
Lemma callFlaskPredict_outcomes orc base u uid w :
  let post := predict_post base u uid in
  callFlaskPredict orc base u uid w =
  match flask_predict orc 1 with
  | inl r => (Return (Some r), emits [post] w)
  | inr e1 =>
      match flask_predict orc 2 with
      | inl r => (Return (Some r), emits [post; attempt_failed 1 e1; Sleep 250; post] w)
      | inr e2 => (Throw e2, emits [post; attempt_failed 1 e1; Sleep 250; post;
                                   attempt_failed 2 e2] w)
      end
  end.
Proof.
  cbv zeta. destruct (flask_predict orc 1) as [r|e1] eqn:H1.
  - now apply callFlaskPredict_first_ok.
  - destruct (flask_predict orc 2) as [r|e2] eqn:H2.
    + now apply callFlaskPredict_retry_ok.
    + now apply callFlaskPredict_both_fail.
Qed.

Lemma scan_without_url cfg orc req_user url w :
  Js.present url = None ->
  post_scan_url cfg orc req_user url w
    = (Return (status_json 400 (Json_message "URL is required")), w).
Proof. intros Hu. unfold post_scan_url. rewrite Hu. reflexivity. Qed.

(** X10.  An authenticated scan whose prediction arrives (at the first or the
    second attempt) and whose save succeeds answers 200 with the prediction
    and appends exactly one UrlCheck: the submitted url, the prediction and
    confidence of the reply, the caller's [_id], the clock; users and session
    are as before. *)
Theorem scan_saves_one_check cfg orc user url u base w r :
  Js.present url = Some u ->
  Js.present (FLASK_URL cfg) = Some base ->
  flask_predict orc 1 = inl r \/
    (exists e1, flask_predict orc 1 = inr e1 /\ flask_predict orc 2 = inl r) ->
  db_fault orc UrlCheckSave = None ->
  let out := post_scan_url cfg orc (Some user) url w in
  fst out = Return (scan_reply orc u r) /\
  store (snd out) = add_check (new_check orc (next_id (store w)) u r user) (store w) /\
  session (snd out) = session w /\
  In saved (trace (snd out)).
Proof.
  intros Hu Hb Hp Hs out. subst out.
  assert (exists evs,
    callFlaskPredict orc base u (caller_id (Some user)) (emits [scanning u] w)
      = (Return (Some r), emits evs (emits [scanning u] w))) as [evs Hc].
  { destruct Hp as [H1|[e1 [H1 H2]]]; eexists.
    - apply callFlaskPredict_first_ok; exact H1.
    - eapply callFlaskPredict_retry_ok; eassumption. }
  rewrite (scan_predicted_saved cfg orc user url u base w r evs Hu Hb Hc Hs).
  split; [reflexivity|]. split; [reflexivity|]. split; [reflexivity|].
  simpl. rewrite !in_app_iff. simpl. rewrite in_app_iff. simpl. tauto.
Qed.

(** X10 at a scan of Alice. *)
Lemma scan_saves_one_check_witness :
  let out := post_scan_url cfg_configured orc_ok (Some alice) (Some "http://evil.example")
               w_alice in
  fst out = Return (scan_reply orc_ok "http://evil.example" phishing_reply) /\
  urlchecks (store (snd out))
    = [new_check orc_ok 2 "http://evil.example" phishing_reply alice].
Proof.
  destruct (scan_saves_one_check cfg_configured orc_ok alice (Some "http://evil.example")
              "http://evil.example" "http://127.0.0.1:7000" w_alice phishing_reply
              eq_refl eq_refl (or_introl eq_refl) eq_refl) as [Hr [Hs _]].
  split; [exact Hr|]. cbv zeta in Hs. now rewrite Hs.
Defined.

(** X11.  POST /api/scan-url never throws: it answers with status 200, 400, 503
    or 500.  A 200 carries the prediction of the first or second reply of
    the predictor, and a request without a (non-empty) url gets 400 "URL is
    required" with nothing logged, called or stored. *)
Theorem scan_always_answers cfg orc req_user url w :
  exists r,
    fst (post_scan_url cfg orc req_user url w) = Return r /\
    In (status r) [200; 400; 503; 500] /\
    (status r = 200 ->
     exists u resp,
       Js.present url = Some u /\ r = scan_reply orc u resp /\
       (flask_predict orc 1 = inl resp \/ flask_predict orc 2 = inl resp)) /\
    (Js.present url = None ->
     r = status_json 400 (Json_message "URL is required") /\
     snd (post_scan_url cfg orc req_user url w) = w).
Proof.
  destruct (Js.present url) as [u|] eqn:Hu.
  2:{ rewrite scan_without_url by exact Hu. eexists. split; [reflexivity|].
      split; [simpl; tauto|]. split; [discriminate|]. intros _. split; reflexivity. }
  destruct (Js.present (FLASK_URL cfg)) as [base|] eqn:Hb.
  2:{ unfold post_scan_url. rewrite Hu, Hb. eexists. split; [reflexivity|].
      split; [simpl; tauto|]. split; discriminate. }
  pose proof (callFlaskPredict_outcomes orc base u (caller_id req_user)
                (emits [scanning u] w)) as Hc. cbv zeta in Hc.
  destruct (flask_predict orc 1) as [r1|e1] eqn:H1;
    [|destruct (flask_predict orc 2) as [r2|e2] eqn:H2].
  3:{ destruct (scan_predictor_throws cfg orc req_user url u base w e2 _ Hu Hb Hc)
        as [l [_ ->]].
      eexists. split; [reflexivity|]. split; [simpl; tauto|]. split; discriminate. }
  all: destruct req_user as [user|];
    [ destruct (db_fault orc UrlCheckSave) as [e|] eqn:Hs;
      [ destruct (scan_predicted_save_fails cfg orc user url u base w _ _ e Hu Hb Hc Hs)
          as [l [_ ->]];
        eexists; split; [reflexivity|]; split; [simpl; tauto|]; split; discriminate
      | rewrite (scan_predicted_saved cfg orc user url u base w _ _ Hu Hb Hc Hs) ]
    | rewrite (scan_predicted_anonymous cfg orc url u base w _ _ Hu Hb Hc) ];
    eexists; (split; [reflexivity|]); (split; [simpl; tauto|]);
    (split; [|discriminate]); intros _;
    eexists; eexists; (split; [reflexivity|]); (split; [reflexivity|]); tauto.
Qed.

(** X12.  callFlaskPredict never returns undefined and changes neither database
    nor session.  It posts once when the first attempt answers; when the
    first attempt fails it posts, sleeps 250 ms and posts again, whatever
    the second attempt gives, and nothing else goes over the network.  It
    returns the first answer it gets and throws the second error when both
    attempts fail. *)
Theorem predictor_client_tries_twice_at_most orc base u uid w :
  let out := callFlaskPredict orc base u uid w in
  let post := predict_post base u uid in
  fst out <> Return None /\
  same_state w (snd out) /\
  (network (trace (snd out)) = (network (trace w) ++ [post])%list \/
   network (trace (snd out)) = (network (trace w) ++ [post; Sleep 250; post])%list) /\
  (forall r, flask_predict orc 1 = inl r ->
     fst out = Return (Some r) /\
     network (trace (snd out)) = (network (trace w) ++ [post])%list) /\
  (forall e1, flask_predict orc 1 = inr e1 ->
     network (trace (snd out)) = (network (trace w) ++ [post; Sleep 250; post])%list) /\
  (forall e1 r, flask_predict orc 1 = inr e1 -> flask_predict orc 2 = inl r ->
     fst out = Return (Some r)) /\
  (forall e1 e2, flask_predict orc 1 = inr e1 -> flask_predict orc 2 = inr e2 ->
     fst out = Throw e2).
Proof.
  cbv zeta. rewrite callFlaskPredict_outcomes. cbv zeta.
  destruct (flask_predict orc 1) as [r1|e1]; [|destruct (flask_predict orc 2) as [r2|e2]];
    (split; [discriminate|]); (split; [apply same_state_emits|]).
  - split; [left; net|]. split; [|split; [|split]]; try (intros; discriminate).
    intros r [= <-]. split; [reflexivity|net].
  - split; [right; net|]. split; [intros; discriminate|]. split; [intros e _; net|].
    split; [|intros; discriminate].
    intros e r [= <-] [= <-]. reflexivity.
  - split; [right; net|]. split; [intros; discriminate|]. split; [intros e _; net|].
    split; [intros; discriminate|].
    intros e e' [= <-] [= <-]. reflexivity.
Qed.

(** X13.  GET /api/recent-scans never throws and never changes database or
    session: it answers 200 or the 500 "Error fetching scan history", which
    carries no detail of the error; when the find rejects it is the 500 and
    the error is logged. *)
Theorem recent_scans_always_answers cfg orc req_user w :
  let out := get_recent_scans cfg orc req_user w in
  same_state w (snd out) /\
  exists r, fst out = Return r /\
    (status r = 200 \/
     r = status_json 500 (Json_message "Error fetching scan history")) /\
    (forall uid e, option_map Users._id req_user = Some uid ->
       db_fault orc (UrlCheckFind [("user", VId uid)]) = Some e ->
       r = status_json 500 (Json_message "Error fetching scan history") /\
       In (Console LError [AStr "Error fetching scans:"; AErr e]) (trace (snd out))).
Proof.
  cbv zeta.
  unfold get_recent_scans, try_catch, bind, UrlCheck_find_recent, UrlCheck_countDocuments,
    query, db_read, throw, ret, console, emit.
  destruct req_user as [u|].
  2:{ split; [apply same_state_refl|]. eexists. split; [reflexivity|].
      split; [now left|]. intros uid e [=]. }
  rewrite cast_by_user.
  destruct (db_fault orc (UrlCheckFind [("user", VId (Users._id u))])) as [e0|] eqn:F0.
  { split; [split; reflexivity|]. eexists. split; [reflexivity|]. split; [now right|].
    intros uid e [= <-] He. split; [reflexivity|]. simpl. rewrite in_app_iff. right.
    left. congruence. }
  repeat match goal with
         | |- context [match cast ?a ?b ?c with _ => _ end] => destruct (cast a b c)
         | |- context [match db_fault ?o ?c with _ => _ end] => destruct (db_fault o c)
         end;
    (split; [split; reflexivity|]); eexists; (split; [reflexivity|]);
    (split; [first [now left | now right]|]); intros uid e' [= <-] He; congruence.
Qed.

(* ------------------------------------------------------------------ *)
(** ** loginExternal, in general *)

(** X14.  When the database answers, the Google callback always succeeds: it
    redirects to / with the session bound to a stored user whose [googleId]
    is the id of the profile. *)
Theorem google_callback_logs_in cfg orc profile w :
  (forall c, db_fault orc c = None) ->
  let out := app cfg orc (GET_google_callback profile) w in
  exists u,
    fst out = Return (redirect "/") /\
    session (snd out) = Some (Users._id u) /\
    In u (users (store (snd out))) /\
    Users.googleId u = Some (id profile).
Proof.
  intros Hdb out. subst out.
  assert (exists u w1,
            app cfg orc (GET_google_callback profile) w
              = (Return (redirect "/"), logged_in u w1) /\
            find (matches Users.field (by_googleId (id profile))) (users (store w1)) = Some u)
    as [u [w1 [-> Hf]]].
  { rewrite app_run by (intros uid _; apply Hdb). cbv zeta.
    unfold try_catch, get_google_callback, authenticate_google, bind at 1.
    match goal with |- context [GoogleStrategy_verify cfg orc profile ?w0] =>
      destruct (GoogleStrategy_verify_succeeds cfg orc profile w0 Hdb) as [u [w1 [Hv _]]];
      pose proof (GoogleStrategy_verify_found cfg orc profile w0 u w1 Hv) as Hf;
      rewrite Hv
    end.
    exists u, w1. split; [reflexivity|exact Hf]. }
  exists u. apply find_some in Hf. destruct Hf as [Hin Hm].
  apply matches_by_googleId in Hm. repeat split; assumption.
Qed.

(** X14 at the Google login of Alice. *)
Lemma google_callback_logs_in_witness :
  exists u,
    fst (app cfg_configured orc_ok (GET_google_callback alice_on_google) w_two_users)
      = Return (redirect "/") /\
    session (snd (app cfg_configured orc_ok (GET_google_callback alice_on_google) w_two_users))
      = Some (Users._id u) /\
    Users.googleId u = Some "google-2001".
Proof.
  destruct (google_callback_logs_in cfg_configured orc_ok alice_on_google w_two_users
              (fun _ => eq_refl)) as [u [H1 [H2 [_ H4]]]].
  exists u. repeat split; assumption.
Defined.

(** X15.  When no user has the Google id and none has the email of the profile
    (or the profile has no email), loginExternal stores a new user with the
    Google id, the email and the display name and no password; a local login
    with that email is then refused with the bare 401 whatever the password. *)
Theorem loginExternal_creates_account cfg orc profile w :
  (forall v, In v (users (store w)) -> Users.googleId v <> Some (id profile)) ->
  (forall e, Js.present (hd_error (emails profile)) = Some e ->
     forall v, In v (users (store w)) -> Users.email v <> Some e) ->
  (forall c, db_fault orc c = None) ->
  let u := google_user (next_id (store w)) profile in
  let w1 := set_store (add_user u (store w)) w in
  GoogleStrategy_verify cfg orc profile w = (Return (DoneUser u), w1) /\
  forall orc' e p,
    hd_error (emails profile) = Some e -> Js.truthy e = true ->
    db_fault orc' (UserFindOne (by_email e)) = None ->
    post_login cfg orc' (Some e) (Some p) w1
      = (Return (if Js.truthy p then unauthorized else status_json 400 (Text "Bad Request")),
         w1).
Proof.
  intros Hg He Hdb u w1. subst u w1. split.
  - unfold GoogleStrategy_verify, try_catch. unfold bind at 1.
    fold (by_googleId (id profile)). rewrite User_findOne_googleId, Hdb.
    rewrite (find_none_googleId _ _ Hg). unfold bind at 1.
    destruct (Js.present (hd_error (emails profile))) as [e|] eqn:Pe.
    + unfold bind at 1. fold (by_email e). rewrite User_findOne_email, Hdb.
      rewrite (find_none_unknown _ _ (He e eq_refl)).
      unfold ret, bind, new_id, User_insert, db_write. simpl. rewrite Hdb. reflexivity.
    + unfold ret, bind, new_id, User_insert, db_write. simpl. rewrite Hdb. reflexivity.
  - intros orc' e p Hh Ht Hf.
    unfold post_login, authenticate_local, Js.present, Js.truthy_opt. rewrite Ht.
    destruct (Js.truthy p); [|reflexivity].
    unfold bind at 1. rewrite LocalStrategy_verify_run by exact Hf.
    cbn [users store set_store add_user]. rewrite find_app_new.
    + replace (matches _ _ _) with true; [reflexivity|].
      symmetry. apply matches_by_email. exact Hh.
    + apply find_none_unknown. apply He. unfold Js.present, Js.truthy_opt.
      now rewrite Hh, Ht.
Qed.

(** X15 at a first Google login of Bob. *)
Lemma loginExternal_creates_account_witness :
  GoogleStrategy_verify cfg_configured orc_ok bob_on_google w_alice
    = (Return (DoneUser (google_user 2 bob_on_google)),
       set_store (add_user (google_user 2 bob_on_google) (store w_alice)) w_alice).
Proof.
  refine (proj1 (loginExternal_creates_account cfg_configured orc_ok bob_on_google w_alice
                   _ _ (fun _ => eq_refl))).
  - intros v [<-|[]]; discriminate.
  - intros e [= <-] v [<-|[]]; discriminate.
Defined.

(* ------------------------------------------------------------------ *)
(** ** What every run keeps *)

Lemma find_none_by_googleId g l u :
  find (matches Users.field (by_googleId g)) l = None -> In u l -> Users.googleId u <> Some g.
Proof.
  intros F Hin Hg. apply (find_none _ _ F) in Hin.
  apply matches_by_googleId in Hg. congruence.
Qed.

Lemma store_change_googleIds s s' :
  store_change s s' -> googleIds_apart s -> googleIds_apart s'.
Proof.
  intros Hc Hs. destruct Hc as [| |orc e p n Fe|profile Fg Fe|u0 g e l Fg Fe Hr|c Hid];
    try exact Hs; intros a b g' Ha Hb Ga Gb; simpl in Ha, Hb.
  - apply in_app_or in Ha. apply in_app_or in Hb.
    destruct Ha as [Ha|[<-|[]]], Hb as [Hb|[<-|[]]]; try discriminate.
    eapply Hs; eassumption.
  - apply in_app_or in Ha. apply in_app_or in Hb.
    destruct Ha as [Ha|[<-|[]]], Hb as [Hb|[<-|[]]].
    + eapply Hs; eassumption.
    + exfalso. simpl in Gb. injection Gb as <-. exact (find_none_by_googleId _ _ _ Fg Ha Ga).
    + exfalso. simpl in Ga. injection Ga as <-. exact (find_none_by_googleId _ _ _ Fg Hb Gb).
    + reflexivity.
  - destruct (replace_user_In _ _ _ _ Hr Ha) as [Ha'| ->];
      destruct (replace_user_In _ _ _ _ Hr Hb) as [Hb'| ->].
    + eapply Hs; eassumption.
    + exfalso. simpl in Gb. injection Gb as <-. exact (find_none_by_googleId _ _ _ Fg Ha' Ga).
    + exfalso. simpl in Ga. injection Ga as <-. exact (find_none_by_googleId _ _ _ Fg Hb' Gb).
    + reflexivity.
Qed.

(** X16.  From a database where ObjectIds, non-empty emails and Google ids each
    identify one user, every run of requests leads to such a database:
    signup and loginExternal create a user only after their lookups found
    none. *)
Theorem accounts_stay_apart cfg rs w :
  wf_store (store w) -> googleIds_apart (store w) ->
  wf_store (store (run cfg rs w)) /\ googleIds_apart (store (run cfg rs w)).
Proof.
  revert w. induction rs as [|[orc r] rs IH]; intros w Hw Hg; simpl; [now split|].
  pose proof (app_store_change cfg orc r w) as Hc.
  apply IH; [eapply store_change_wf|eapply store_change_googleIds]; eassumption.
Qed.

(** X16 at two signups and a Google login. *)
Lemma accounts_stay_apart_witness :
  let s := store (run cfg_configured
                    [(orc_ok, POST_signup "carol@example.org" "hunter2" None);
                     (orc_ok, GET_google_callback alice_on_google);
                     (orc_ok, POST_signup "alice@example.org" "again" None)]
                    w_two_users) in
  wf_store s /\ googleIds_apart s.
Proof.
  exact (accounts_stay_apart cfg_configured _ w_two_users wf_two_users googleIds_two_users).
Defined.

(** What a change of the database keeps. *)
Lemma store_change_keeps s s' :
  store_change s s' -> wf_store s ->
  (exists l, urlchecks s' = (urlchecks s ++ l)%list) /\
  (exists l, map account_identity (users s') = (map account_identity (users s) ++ l)%list).
Proof.
  intros Hc Hs. destruct Hc as [| |orc e p n Fe|profile Fg Fe|u0 g e l Fg Fe Hr|c Hid]; simpl.
  - split; exists []; now rewrite app_nil_r.
  - split; exists []; now rewrite app_nil_r.
  - split; [exists []; now rewrite app_nil_r|]. rewrite map_app. eexists; reflexivity.
  - split; [exists []; now rewrite app_nil_r|]. rewrite map_app. eexists; reflexivity.
  - split; [exists []; now rewrite app_nil_r|]. exists []. rewrite app_nil_r.
    destruct Hs as [Hn _]. apply find_some in Fe. destruct Fe as [Hin _].
    destruct (replace_user_at u0 (link_google u0 g) (users s) Hin eq_refl) as [l1 [l2 [Hl Hr']]].
    { intros v Hv Hid. exact (NoDup_map_inj Users._id (users s) v u0 Hn Hv Hin Hid). }
    rewrite Hr' in Hr. injection Hr as <-. rewrite Hl, !map_app. reflexivity.
  - split; [eexists; reflexivity|]. exists []. now rewrite app_nil_r.
Qed.

(* ------------------------------------------------------------------ *)
(** ** signup, after other requests *)

(** A stored user stays stored, with its [_id], email, password and name. *)
Lemma run_keeps_identity cfg rs w u :
  wf_store (store w) -> In u (users (store w)) ->
  exists u', In u' (users (store (run cfg rs w))) /\
             account_identity u' = account_identity u.
Proof.
  revert w u. induction rs as [|[orc r] rs IH]; intros w u Hw Hin; simpl.
  { exists u. now split. }
  pose proof (app_store_change cfg orc r w) as Hc.
  destruct (store_change_keeps _ _ Hc Hw) as [_ [l Hl]].
  assert (In (account_identity u)
            (map account_identity (users (store (snd (app cfg orc r w)))))) as Hi.
  { rewrite Hl. apply in_or_app. left. now apply in_map. }
  apply in_map_iff in Hi. destruct Hi as [u1 [Hid Hin1]].
  destruct (IH _ u1 (store_change_wf _ _ Hc Hw) Hin1) as [u' [Hin' Hid']].
  exists u'. split; [exact Hin'|]. congruence.
Qed.

Lemma find_known_email e l :
  (exists u, In u l /\ Users.email u = Some e) ->
  exists v, find (matches Users.field (by_email e)) l = Some v.
Proof.
  intros [u [Hin He]].
  destruct (find (matches Users.field (by_email e)) l) as [v|] eqn:F; [now exists v|].
  exfalso. exact (find_none_email e l u F Hin He).
Qed.

Lemma post_signup_known cfg orc e p n w :
  db_fault orc (UserFindOne (by_email e)) = None ->
  (exists u, In u (users (store w)) /\ Users.email u = Some e) ->
  post_signup cfg orc e p n w = (Return conflict, w).
Proof.
  intros Hf He. rewrite post_signup_run by exact Hf.
  destruct (find_known_email e _ He) as [v ->]. reflexivity.
Qed.

(** C9.  Signup goes by whether the email is registered.  Where a user has
    the email [e], a signup with [e] is answered 409 and the world stays as
    it is; so it is in the world a successful signup with [e] left behind,
    at once or after any run of other requests, where the user of the first
    signup is still stored with its [_id], email, password and name.  Where
    no user has the email and the save succeeds, signup answers 201, has
    stored a user with [bcrypt.hash(password, 10)] as its password and
    leaves the session alone. *)
Theorem signup_conflict_or_create cfg orc e p n w :
  db_fault orc (UserFindOne (by_email e)) = None ->
  (forall orc0 p0 n0 w0,
     post_signup cfg orc0 e p0 n0 w0 = (Return created, w) ->
     post_signup cfg orc e p n w = (Return conflict, w)) /\
  (forall orc0 p0 n0 w0 w1 rs,
     wf_store (store w0) ->
     post_signup cfg orc0 e p0 n0 w0 = (Return created, w1) ->
     w = run cfg rs w1 ->
     post_signup cfg orc e p n w = (Return conflict, w) /\
     exists u, In u (users (store w)) /\
               account_identity u
               = account_identity (signup_user orc0 (next_id (store w0)) e p0 n0)) /\
  ((exists u, In u (users (store w)) /\ Users.email u = Some e) ->
   post_signup cfg orc e p n w = (Return conflict, w)) /\
  ((forall u, In u (users (store w)) -> Users.email u <> Some e) ->
   db_fault orc UserSave = None ->
   post_signup cfg orc e p n w =
     (Return created,
      set_store (add_user (signup_user orc (next_id (store w)) e p n) (store w)) w) /\
   session (snd (post_signup cfg orc e p n w)) = session w).
Proof.
  intros Hf. split; [|split; [|split]].
  - intros orc0 p0 n0 w0 H0. apply post_signup_created in H0. destruct H0 as [_ ->].
    apply post_signup_known; [exact Hf|].
    eexists. split; [simpl; apply in_or_app; right; now left|reflexivity].
  - intros orc0 p0 n0 w0 w1 rs Hw0 H0 ->.
    apply post_signup_created in H0. destruct H0 as [Hnone ->].
    destruct (run_keeps_identity cfg rs
                (set_store (add_user (signup_user orc0 (next_id (store w0)) e p0 n0)
                              (store w0)) w0)
                (signup_user orc0 (next_id (store w0)) e p0 n0)) as [u [Hin Hid]].
    + simpl. apply (store_change_wf (store w0)); [|exact Hw0]. now apply sc_signup.
    + simpl. apply in_or_app. right. now left.
    + split; [|now exists u].
      apply post_signup_known; [exact Hf|]. exists u. split; [exact Hin|].
      unfold account_identity in Hid. simpl in Hid. congruence.
  - now apply post_signup_known.
  - intros Hnew Hs. rewrite post_signup_run by exact Hf.
    rewrite (find_none_unknown _ _ Hnew), Hs. split; reflexivity.
Qed.

(** C9 at two signups of one email, with a login, a scan and a logout of the
    first user between them. *)
Lemma signup_conflict_or_create_witness :
  let w1 := snd (post_signup cfg_configured orc_ok "alice@example.org" "correct horse"
                   (Some "Alice") w_empty) in
  let w := run cfg_configured
             [(orc_ok, POST_login (Some "alice@example.org") (Some "correct horse"));
              (orc_ok, POST_scan_url (Some "http://evil.example"));
              (orc_ok, GET_logout)] w1 in
  post_signup cfg_configured orc_ok "alice@example.org" "another" None w1
    = (Return conflict, w1) /\
  post_signup cfg_configured orc_ok "alice@example.org" "another" None w
    = (Return conflict, w) /\
  urlchecks (store w) <> [].
Proof.
  cbv zeta. split; [|split].
  - apply (proj1 (signup_conflict_or_create cfg_configured orc_ok "alice@example.org"
                    "another" None _ eq_refl) orc_ok "correct horse" (Some "Alice") w_empty).
    reflexivity.
  - refine (proj1 (proj1 (proj2 (signup_conflict_or_create cfg_configured orc_ok
                                   "alice@example.org" "another" None _ eq_refl))
                     orc_ok "correct horse" (Some "Alice") w_empty _
                     [(orc_ok, POST_login (Some "alice@example.org") (Some "correct horse"));
                      (orc_ok, POST_scan_url (Some "http://evil.example"));
                      (orc_ok, GET_logout)] _ eq_refl eq_refl)).
    split; [constructor|]. split; [intros u []|intros u v e' []].
  - vm_compute. discriminate.
Defined.

(** X17.  No run of requests deletes or rewrites anything but a [googleId]: the
    UrlChecks after the run are those before it followed by new ones, and so
    are the users as to [_id], email, password and name. *)
Theorem history_and_accounts_only_grow cfg rs w :
  wf_store (store w) ->
  (exists l, urlchecks (store (run cfg rs w)) = (urlchecks (store w) ++ l)%list) /\
  (exists l, map account_identity (users (store (run cfg rs w)))
             = (map account_identity (users (store w)) ++ l)%list).
Proof.
  revert w. induction rs as [|[orc r] rs IH]; intros w Hw; simpl.
  - split; exists []; now rewrite app_nil_r.
  - pose proof (app_store_change cfg orc r w) as Hc.
    destruct (store_change_keeps _ _ Hc Hw) as [[l1 H1] [l2 H2]].
    destruct (IH _ (store_change_wf _ _ Hc Hw)) as [[l3 H3] [l4 H4]].
    simpl in H3, H4. rewrite H3, H4, H1, H2, <- !app_assoc.
    split; eexists; reflexivity.
Qed.

(** X17 at a Google login that links and a signup. *)
Lemma history_and_accounts_only_grow_witness :
  exists l,
    map account_identity (users (store (run cfg_configured
                                  [(orc_ok, GET_google_callback alice_on_google);
                                   (orc_ok, POST_signup "carol@example.org" "hunter2" None)]
                                  w_two_users)))
    = (map account_identity (users (store w_two_users)) ++ l)%list.
Proof.
  exact (proj2 (history_and_accounts_only_grow cfg_configured _ w_two_users wf_two_users)).
Defined.

Lemma passport_session_stored orc w u w0 :
  passport_session orc w = (Return (Some u), w0) -> In u (users (store w)).
Proof.
  unfold passport_session, bind, get_session, deserializeUser, try_catch, bind,
    User_findById, db_read, put_session, ret, throw.
  destruct (session w) as [uid|]; [|discriminate].
  destruct (db_fault orc (UserFindById uid)); [discriminate|].
  destruct (find _ _) as [v|] eqn:F; [|discriminate].
  intros [= <- _]. apply find_some in F. tauto.
Qed.

Lemma post_signup_urlchecks cfg orc e p n w :
  urlchecks (store (snd (post_signup cfg orc e p n w))) = urlchecks (store w).
Proof.
  unfold post_signup, try_catch, bind. fold (by_email e). rewrite User_findOne_email.
  destruct (db_fault orc (UserFindOne (by_email e))); [reflexivity|].
  destruct (find _ _); [reflexivity|].
  unfold new_id, User_insert, db_write. simpl.
  destruct (db_fault orc UserSave); reflexivity.
Qed.

Lemma get_google_callback_urlchecks cfg orc profile w :
  urlchecks (store (snd (get_google_callback cfg orc profile w))) = urlchecks (store w).
Proof.
  unfold get_google_callback, authenticate_google, bind at 1.
  assert (urlchecks (store (snd (GoogleStrategy_verify cfg orc profile w)))
          = urlchecks (store w)) as H.
  { unfold GoogleStrategy_verify, try_catch. unfold bind at 1.
    fold (by_googleId (id profile)). rewrite User_findOne_googleId.
    destruct (db_fault orc (UserFindOne (by_googleId (id profile)))); [reflexivity|].
    destruct (find _ (users (store w))); [reflexivity|].
    unfold bind at 1.
    destruct (Js.present (hd_error (emails profile))) as [e|].
    - unfold bind at 1. fold (by_email e). rewrite User_findOne_email.
      destruct (db_fault orc (UserFindOne (by_email e))); [reflexivity|].
      destruct (find (matches Users.field (by_email e)) (users (store w))) as [u0|].
      + unfold bind, User_update, db_write.
        destruct (db_fault orc UserSave); [reflexivity|].
        destruct (replace_user _ _); reflexivity.
      + unfold ret, bind, new_id, User_insert, db_write. simpl.
        destruct (db_fault orc UserSave); reflexivity.
    - unfold ret, bind, new_id, User_insert, db_write. simpl.
      destruct (db_fault orc UserSave); reflexivity. }
  destruct (GoogleStrategy_verify cfg orc profile w) as [[[e|info|u]|e] w1]; exact H.
Qed.

Lemma post_scan_url_urlchecks cfg orc req_user url w :
  urlchecks (store (snd (post_scan_url cfg orc req_user url w))) = urlchecks (store w) \/
  exists user c,
    req_user = Some user /\ UrlCheck.user c = Users._id user /\
    urlchecks (store (snd (post_scan_url cfg orc req_user url w)))
      = (urlchecks (store w) ++ [c])%list.
Proof.
  pose proof (post_scan_url_change cfg orc req_user url w) as Hc.
  destruct req_user as [user|].
  2:{ left. now rewrite (proj1 (scan_anonymous_state cfg orc url w)). }
  destruct (Js.present url) as [u|] eqn:Hu;
    [|left; unfold post_scan_url; rewrite Hu; reflexivity].
  destruct (Js.present (FLASK_URL cfg)) as [base|] eqn:Hb;
    [|left; unfold post_scan_url; rewrite Hu, Hb; reflexivity].
  pose proof (callFlaskPredict_outcomes orc base u (caller_id (Some user))
                (emits [scanning u] w)) as Hp. cbv zeta in Hp.
  destruct (flask_predict orc 1) as [r1|e1];
    [|destruct (flask_predict orc 2) as [r2|e2]].
  3:{ destruct (scan_predictor_throws cfg orc (Some user) url u base w e2 _ Hu Hb Hp)
        as [l [_ ->]]. now left. }
  all: destruct (db_fault orc UrlCheckSave) as [e|] eqn:Hs;
    [ destruct (scan_predicted_save_fails cfg orc user url u base w _ _ e Hu Hb Hp Hs)
        as [l [_ ->]]; now left
    | rewrite (scan_predicted_saved cfg orc user url u base w _ _ Hu Hb Hp Hs);
      right; exists user; eexists; split; [reflexivity|]; split; [|reflexivity];
      reflexivity ].
Qed.

(** A request stores at most one UrlCheck, under a stored user. *)
Lemma app_urlchecks cfg orc r w :
  urlchecks (store (snd (app cfg orc r w))) = urlchecks (store w) \/
  exists user c,
    In user (users (store w)) /\ UrlCheck.user c = Users._id user /\
    urlchecks (store (snd (app cfg orc r w))) = (urlchecks (store w) ++ [c])%list.
Proof.
  unfold app, try_catch, bind.
  pose proof (passport_session_store orc w) as Hs.
  pose proof (passport_session_stored orc w) as Hu.
  destruct (passport_session orc w) as [[req_user|e] w0]; simpl in Hs;
    [|left; simpl; now rewrite Hs].
  assert (forall (m : M response),
            urlchecks (store (snd (let (o, w') := m w0 in
                           match o with
                           | Return a => (Return a, w')
                           | Throw e => error_middleware cfg e w'
                           end))) = urlchecks (store (snd (m w0)))) as Hcatch.
  { intros m. destruct (m w0) as [[a|e] w1]; reflexivity. }
  rewrite !Hcatch. rewrite <- Hs. destruct r.
  - left. apply post_signup_urlchecks.
  - left. now rewrite post_login_store.
  - left. apply get_google_callback_urlchecks.
  - left. now rewrite get_current_user_store.
  - destruct (post_scan_url_urlchecks cfg orc req_user url w0)
      as [H|[user [c [-> [Hc H]]]]]; [now left|].
    right. exists user, c. split; [rewrite Hs; exact (Hu user w0 eq_refl)|]. now split.
  - left. now rewrite get_recent_scans_store.
  - left. destruct req_user; reflexivity.
  - left. destruct req_user; reflexivity.
  - left. reflexivity.
Qed.

Lemma store_change_ids s s' :
  store_change s s' -> incl (map Users._id (users s)) (map Users._id (users s')).
Proof.
  intros Hc. destruct Hc as [| |orc e p n Fe|profile Fg Fe|u0 g e l Fg Fe Hr|c Hid]; simpl;
    try apply incl_refl.
  - rewrite map_app. apply incl_appl, incl_refl.
  - rewrite map_app. apply incl_appl, incl_refl.
  - rewrite (replace_user_ids _ _ _ Hr). apply incl_refl.
Qed.

(** X18.  Every stored UrlCheck names the [_id] of a stored user, after any run
    from a database where that holds: a scan is saved only under the user
    the session resolved to. *)
Theorem scans_keep_owners cfg rs w :
  scans_have_owners (store w) -> scans_have_owners (store (run cfg rs w)).
Proof.
  revert w. induction rs as [|[orc r] rs IH]; intros w Hw; simpl; [exact Hw|].
  apply IH. intros c Hc.
  apply (store_change_ids _ _ (app_store_change cfg orc r w)).
  destruct (app_urlchecks cfg orc r w) as [H|[user [c0 [Hin [Ho H]]]]];
    simpl in *; rewrite H in Hc.
  - now apply Hw.
  - apply in_app_or in Hc. destruct Hc as [Hc|[<-|[]]]; [now apply Hw|].
    rewrite Ho. now apply in_map.
Qed.

(** X18 at two scans around a logout. *)
Lemma scans_keep_owners_witness :
  scans_have_owners
    (store (run cfg_configured
              [(orc_later, POST_scan_url (Some "http://new.example"));
               (orc_ok, GET_logout);
               (orc_ok, POST_scan_url (Some "http://other.example"))]
              w_history)).
Proof.
  apply scans_keep_owners.
  intros c [<-|[<-|[]]]; simpl; tauto.
Defined.

(* ------------------------------------------------------------------ *)
(** ** The health probe *)

(** X19.  The handler of GET /api/health always answers 200 with status and
    nodejs "online".
    flask_ai is "online" exactly when a predictor URL is configured and its
    /health answered with status 200, mongodb exactly when the connection's
    readyState is 1; the predictor is probed once when configured and not at
    all otherwise. *)
Theorem health_reports_dependencies cfg probe :
  exists mongodb flask_ai sent,
    get_health cfg probe
      = (200, Health_report "online" "online" mongodb flask_ai (now_health probe), sent) /\
    (flask_ai = "online" <->
       exists base, Js.present (FLASK_URL cfg) = Some base /\ flask_health probe = inl 200) /\
    (flask_ai = "online" \/ flask_ai = "offline") /\
    (mongodb = "online" <-> readyState probe = 1) /\
    (mongodb = "online" \/ mongodb = "offline") /\
    sent = match Js.present (FLASK_URL cfg) with
           | Some base => [AxiosGet (base ++ "/health") 5000%N]
           | None => []
           end.
Proof.
  unfold get_health.
  destruct (Js.present (FLASK_URL cfg)) as [base|]; cbv zeta; simpl fst; simpl snd;
    (eexists; eexists; eexists; split; [reflexivity|]).
  - split; [|split; [|split; [|split; [|reflexivity]]]].
    + destruct (flask_health probe) as [st|e].
      * destruct (Nat.eqb st 200) eqn:E.
        -- apply Nat.eqb_eq in E. subst st. split; [|reflexivity]. intros _. now exists base.
        -- split; [discriminate|]. intros [b [_ [= ->]]]. discriminate.
      * split; [discriminate|]. intros [b [_ [=]]].
    + destruct (flask_health probe) as [st|e]; [destruct (Nat.eqb st 200)|]; tauto.
    + destruct (Nat.eqb (readyState probe) 1) eqn:E.
      * apply Nat.eqb_eq in E. tauto.
      * apply Nat.eqb_neq in E. split; [discriminate|tauto].
    + destruct (Nat.eqb (readyState probe) 1); tauto.
  - split; [|split; [|split; [|split; [|reflexivity]]]].
    + split; [discriminate|]. intros [b [[=] _]].
    + tauto.
    + destruct (Nat.eqb (readyState probe) 1) eqn:E.
      * apply Nat.eqb_eq in E. tauto.
      * apply Nat.eqb_neq in E. split; [discriminate|tauto].
    + destruct (Nat.eqb (readyState probe) 1); tauto.
Qed.

(* ------------------------------------------------------------------ *)
(** ** Usernames *)

(** [s.split(sep)[0]] *)
Lemma split_head_spec sep s :
  exists rest,
    s = Js.split_head sep s ++ rest /\
    (forall c, In c (list_ascii_of_string (Js.split_head sep s)) -> c <> sep) /\
    ((forall c, In c (list_ascii_of_string s) -> c <> sep) -> Js.split_head sep s = s) /\
    (rest <> "" -> exists rest', rest = String sep rest').
Proof.
  induction s as [|c s IH]; simpl.
  - exists "". split; [reflexivity|]. split; [intros c []|]. split; [reflexivity|].
    intros H. now elim H.
  - destruct (Ascii.eqb c sep) eqn:E.
    + apply Ascii.eqb_eq in E. subst c. exists (String sep s). simpl.
      split; [reflexivity|]. split; [intros c []|]. split.
      * intros H. exfalso. apply (H sep); [now left|reflexivity].
      * intros _. now exists s.
    + apply Ascii.eqb_neq in E. destruct IH as [rest [Hp [Hno [Hall Hr]]]].
      exists rest. simpl. split; [now rewrite <- Hp|].
      split; [|split; [|exact Hr]].
      * intros c0 [<-|Hc]; [exact E|now apply Hno].
      * intros H. f_equal. apply Hall. intros c0 Hc. apply H. now right.
Qed.

(** X20.  The username shown for a user without a name is the part of its email
    before the first "@": a prefix of the email without any "@", the whole
    email when it has none, and what it leaves out starts with "@". *)
Theorem username_from_email u e w :
  Js.present (Users.name u) = None ->
  Users.email u = Some e ->
  exists n rest,
    username u w = (Return n, w) /\
    e = n ++ rest /\
    (forall c, In c (list_ascii_of_string n) -> c <> "@"%char) /\
    ((forall c, In c (list_ascii_of_string e) -> c <> "@"%char) -> n = e) /\
    (rest <> "" -> exists rest', rest = String "@" rest').
Proof.
  intros Hn He. unfold username. rewrite Hn, He.
  destruct (split_head_spec "@" e) as [rest H].
  exists (Js.split_head "@" e), rest. split; [reflexivity|exact H].
Qed.

(** X20 at an account without a name. *)
Lemma username_from_email_witness :
  exists n rest, username bob_google_only w_two_users = (Return n, w_two_users) /\
                 "bob@example.org" = n ++ rest.
Proof.
  destruct (username_from_email bob_google_only "bob@example.org" w_two_users eq_refl eq_refl)
    as [n [rest [H1 [H2 _]]]].
  exists n, rest. now split.
Defined.

(* ------------------------------------------------------------------ *)
(** ** What login and signup never do *)

(** POST /api/login, case by case. *)
Lemma post_login_run cfg orc email password w :
  post_login cfg orc email password w =
  match Js.present email, Js.present password with
  | Some e, Some p =>
      match db_fault orc (UserFindOne (by_email e)) with
      | Some err => (Throw err, w)
      | None =>
          match find (matches Users.field (by_email e)) (users (store w)) with
          | None => (Return unauthorized, w)
          | Some u =>
              match Js.present (Users.password u) with
              | None => (Return unauthorized, w)
              | Some h =>
                  if bcrypt_compare orc p h then
                    (Return (status_json 200
                               (Json_login "Login success"
                                  match Js.present (Users.name u) with
                                  | Some n => n
                                  | None => Js.split_head "@" e
                                  end)), logged_in u w)
                  else (Return unauthorized, w)
              end
          end
      end
  | _, _ => (Return (status_json 400 (Text "Bad Request")), w)
  end.
Proof.
  unfold post_login, authenticate_local.
  destruct (Js.present email) as [e|]; [|reflexivity].
  destruct (Js.present password) as [p|]; [|reflexivity].
  destruct (db_fault orc (UserFindOne (by_email e))) as [err|] eqn:Hf.
  { unfold bind at 1, LocalStrategy_verify, try_catch. unfold bind at 1.
    fold (by_email e). rewrite User_findOne_email, Hf. reflexivity. }
  unfold bind at 1. rewrite LocalStrategy_verify_run by exact Hf.
  destruct (find _ _) as [u|] eqn:Fu; [|reflexivity].
  destruct (Js.present (Users.password u)) as [h|]; [|reflexivity].
  destruct (bcrypt_compare orc p h); [|reflexivity].
  apply find_some in Fu. destruct Fu as [_ Hm]. apply matches_by_email in Hm.
  unfold logIn, username, bind, put_session, ret.
  destruct (Js.present (Users.name u)); [reflexivity|rewrite Hm; reflexivity].
Qed.

(** X21.  POST /api/login never changes the database, and it binds the session
    only together with a 200 "Login success", to a stored user with the email
    presented whose non-empty stored hash bcrypt accepted; in every other
    case the world is left as it was. *)
Theorem login_binds_session_only_on_success cfg orc email password w :
  let out := post_login cfg orc email password w in
  store (snd out) = store w /\
  ((snd out = w /\ forall r, fst out = Return r -> status r <> 200) \/
   exists u h e p name,
     Js.present email = Some e /\ Js.present password = Some p /\
     In u (users (store w)) /\ Users.email u = Some e /\
     Js.present (Users.password u) = Some h /\ bcrypt_compare orc p h = true /\
     out = (Return (status_json 200 (Json_login "Login success" name)), logged_in u w)).
Proof.
  cbv zeta. split; [apply post_login_store|]. rewrite post_login_run.
  destruct (Js.present email) as [e|] eqn:He;
    [|left; split; [reflexivity|intros r [= <-]; discriminate]].
  destruct (Js.present password) as [p|] eqn:Hp;
    [|left; split; [reflexivity|intros r [= <-]; discriminate]].
  destruct (db_fault orc (UserFindOne (by_email e)));
    [left; split; [reflexivity|intros r [=]]|].
  destruct (find _ _) as [u|] eqn:Fu;
    [|left; split; [reflexivity|intros r [= <-]; discriminate]].
  destruct (Js.present (Users.password u)) as [h|] eqn:Hh;
    [|left; split; [reflexivity|intros r [= <-]; discriminate]].
  destruct (bcrypt_compare orc p h) eqn:Hc;
    [|left; split; [reflexivity|intros r [= <-]; discriminate]].
  right. apply find_some in Fu. destruct Fu as [Hin Hm]. apply matches_by_email in Hm.
  exists u, h, e, p. eexists. repeat split; try assumption; reflexivity.
Qed.

(** POST /api/signup, case by case. *)
Lemma post_signup_cases cfg orc e p n w :
  post_signup cfg orc e p n w =
  match db_fault orc (UserFindOne (by_email e)) with
  | Some err =>
      (Return (status_json 500 (Json_message_error "Signup error" (Js.message err))), w)
  | None =>
      match find (matches Users.field (by_email e)) (users (store w)) with
      | Some _ => (Return conflict, w)
      | None =>
          match db_fault orc UserSave with
          | None =>
              (Return created,
               set_store (add_user (signup_user orc (next_id (store w)) e p n) (store w)) w)
          | Some err =>
              (Return (status_json 500 (Json_message_error "Signup error" (Js.message err))),
               set_store (bump_id (store w)) w)
          end
      end
  end.
Proof.
  destruct (db_fault orc (UserFindOne (by_email e))) as [err|] eqn:Hf.
  - unfold post_signup, try_catch, bind. fold (by_email e).
    rewrite User_findOne_email, Hf. reflexivity.
  - now apply post_signup_run.
Qed.

(** X22.  POST /api/signup never throws and touches neither session nor log: it
    answers 201, 409 or 500, the users are unchanged unless it answers 201,
    and a rejection of the lookup or of the save is answered 500 "Signup
    error" with the message of the error. *)
Theorem signup_always_answers cfg orc e p n w :
  let out := post_signup cfg orc e p n w in
  session (snd out) = session w /\ trace (snd out) = trace w /\
  exists r, fst out = Return r /\
    In (status r) [201; 409; 500] /\
    (status r <> 201 -> users (store (snd out)) = users (store w)) /\
    (forall err, db_fault orc (UserFindOne (by_email e)) = Some err ->
       r = status_json 500 (Json_message_error "Signup error" (Js.message err))) /\
    (forall err, db_fault orc (UserFindOne (by_email e)) = None ->
       (forall u, In u (users (store w)) -> Users.email u <> Some e) ->
       db_fault orc UserSave = Some err ->
       r = status_json 500 (Json_message_error "Signup error" (Js.message err))).
Proof.
  cbv zeta. rewrite post_signup_cases.
  destruct (db_fault orc (UserFindOne (by_email e))) as [e0|].
  { split; [reflexivity|]. split; [reflexivity|].
    eexists. split; [reflexivity|]. split; [simpl; tauto|].
    split; [reflexivity|]. split; [intros err [= <-]; reflexivity|intros err [=]]. }
  destruct (find _ _) as [u|] eqn:Fu.
  { split; [reflexivity|]. split; [reflexivity|].
    eexists. split; [reflexivity|]. split; [simpl; tauto|].
    split; [reflexivity|]. split; [intros err [=]|].
    intros err _ Hnew _. apply find_some in Fu. destruct Fu as [Hin Hm].
    apply matches_by_email in Hm. now elim (Hnew u Hin). }
  destruct (db_fault orc UserSave) as [e1|]; simpl.
  - split; [reflexivity|]. split; [reflexivity|].
    eexists. split; [reflexivity|]. split; [simpl; tauto|].
    split; [reflexivity|]. split; [intros err [=]|]. intros err _ _ [= <-]. reflexivity.
  - split; [reflexivity|]. split; [reflexivity|].
    eexists. split; [reflexivity|]. split; [simpl; tauto|].
    split; [intros H; now elim H|]. split; intros err; discriminate.
Qed.

(* ------------------------------------------------------------------ *)
(** ** The environment at start-up *)

(** [a || b] on the variables of the environment. *)
Lemma present_or a b s :
  Js.present (Js.or a b) = Some s <->
  Js.present a = Some s \/ (Js.present a = None /\ Js.present b = Some s).
Proof.
  unfold Js.or, Js.present. destruct (Js.truthy_opt a) eqn:Ta; cbv iota; rewrite ?Ta.
  - split; [now left|]. intros [H|[H _]]; [exact H|].
    subst a. discriminate.
  - split; [intros H; right; now split|]. intros [H|[_ H]]; [discriminate|exact H].
Qed.

(** X23.  The checks of the environment exit with code 1, after the one
    line on the error stream, exactly when neither MONGO_URI nor
    MONGODB_URI is a non-empty string; otherwise they go on with the first
    non-empty of the two as the URI and with PORT, or 3000, as the port.
    The predictor URL is FLASK_URL when non-empty, else FLASK_SERVICE_URL.
    Where the checks go on they log nothing when there is a predictor URL;
    without one they log the one warning, still go on, and every scan that
    has a url is then answered with the 503. *)
Theorem environment_decides_start b :
  (snd (check_environment b) = Exit 1 <->
     Js.present (env_MONGO_URI b) = None /\ Js.present (env_MONGODB_URI b) = None) /\
  (snd (check_environment b) = Exit 1 ->
     fst (check_environment b)
     = [Console LError [AStr "❌ FATAL: MONGO_URI not set in .env!"]]) /\
  (forall uri,
     Js.present (env_MONGO_URI b) = Some uri \/
     (Js.present (env_MONGO_URI b) = None /\ Js.present (env_MONGODB_URI b) = Some uri) ->
     exists p, snd (check_environment b) = Continue uri p) /\
  (forall uri p, snd (check_environment b) = Continue uri p ->
     (Js.present (env_MONGO_URI b) = Some uri \/
      (Js.present (env_MONGO_URI b) = None /\ Js.present (env_MONGODB_URI b) = Some uri)) /\
     (Js.present (env_PORT b) = Some p \/ (Js.present (env_PORT b) = None /\ p = "3000"))) /\
  (forall base, Js.present (FLASK_URL (proc b)) = Some base <->
     Js.present (env_FLASK_URL (proc b)) = Some base \/
     (Js.present (env_FLASK_URL (proc b)) = None /\
      Js.present (env_FLASK_SERVICE_URL (proc b)) = Some base)) /\
  (forall uri p, snd (check_environment b) = Continue uri p ->
     (forall base, Js.present (FLASK_URL (proc b)) = Some base ->
        fst (check_environment b) = []) /\
     (Js.present (env_FLASK_URL (proc b)) = None ->
      Js.present (env_FLASK_SERVICE_URL (proc b)) = None ->
      fst (check_environment b)
      = [Console LWarn
           [AStr "⚠️ WARNING: FLASK_URL not set — AI features will not work."]] /\
      forall orc req_user u w,
        post_scan_url (proc b) orc req_user (Some u) w
        = (Return (if Js.truthy u
                   then status_json 503
                          (Json_message_error "AI service is not configured."
                             "FLASK_SERVICE_NOT_CONFIGURED")
                   else status_json 400 (Json_message "URL is required")), w))).
Proof.
  unfold check_environment.
  pose proof (present_or (env_MONGO_URI b) (env_MONGODB_URI b)) as Hm.
  fold (MONGODB_URI b) in Hm.
  pose proof (present_or (env_FLASK_URL (proc b)) (env_FLASK_SERVICE_URL (proc b))) as Hp.
  split; [|split; [|split; [|split; [|split]]]].
  - destruct (Js.present (MONGODB_URI b)) as [uri|] eqn:P; simpl.
    + split; [discriminate|]. intros [H1 H2].
      destruct (proj1 (Hm uri) eq_refl) as [H|[_ H]]; congruence.
    + split; [|reflexivity]. intros _.
      destruct (Js.present (env_MONGO_URI b)) as [x|] eqn:P1.
      * assert (None = Some x) by (apply Hm; now left). discriminate.
      * split; [reflexivity|].
        destruct (Js.present (env_MONGODB_URI b)) as [y|] eqn:P2; [|reflexivity].
        assert (None = Some y) by (apply Hm; right; now split). discriminate.
  - destruct (Js.present (MONGODB_URI b)); simpl; [discriminate|reflexivity].
  - intros uri H. apply Hm in H. rewrite H. simpl. now eexists.
  - intros uri p. destruct (Js.present (MONGODB_URI b)) as [uri'|] eqn:P; simpl;
      [|discriminate].
    intros [= <- <-]. split; [now apply Hm|].
    unfold port. destruct (Js.present (env_PORT b)); [now left|right; now split].
  - intros base. exact (Hp base).
  - intros uri p.
    destruct (Js.present (MONGODB_URI b)); simpl; [|discriminate]. intros _. split.
    + intros base Hb. unfold FLASK_URL in *. now rewrite Hb.
    + intros H1 H2.
      assert (Js.present (FLASK_URL (proc b)) = None) as Pf.
      { destruct (Js.present (FLASK_URL (proc b))) as [base|] eqn:Pf; [|reflexivity].
        apply Hp in Pf. destruct Pf as [H|[_ H]]; congruence. }
      rewrite Pf. split; [reflexivity|]. intros orc req_user u w.
      unfold post_scan_url, Js.present at 1, Js.truthy_opt.
      destruct (Js.truthy u); [rewrite Pf|]; reflexivity.
Qed.
